(** * Swadges Plays: many badges vote on the one key held down in an emulator

    A shallow embedding of [game.py].  The WAMP session object
    [GameComponent] keeps a dictionary of joined badges, the button that is
    currently pushed into the emulator window, the button that was pressed
    last, and two counters that drive the periodic save states.  Its handlers
    are rendered as computations in a small state-and-trace monad: the state is
    the session object, the trace lists the calls made to the collaborators
    (WAMP publish / subscribe, xdo key injection, [print]) in program order,
    and a computation may stop with a Python exception. *)

From Stdlib Require Import ZArith String List Bool Lia QArith_base.
Import ListNotations.
Local Close Scope Q_scope.
Local Open Scope string_scope.
Local Open Scope list_scope.
Local Open Scope Z_scope.

Set Implicit Arguments.

(** ** Button names *)

(** The constants of class [Button]; they are also exactly the keys of
    [keycodes] and of the [totals] dictionary built by [calculate_buttons].
    The order of [all] is the order in which both dictionaries list them.
    Badges report their buttons by these names, so a button is one of the
    eight throughout (every one of them is a non-empty string, hence true
    where the code tests a button for being set). *)
Module Button.

Inductive t : Set := UP | DOWN | LEFT | RIGHT | SELECT | START | A | B.

Definition eqb (x y : t) : bool :=
  match x, y with
  | UP, UP | DOWN, DOWN | LEFT, LEFT | RIGHT, RIGHT => true
  | SELECT, SELECT | START, START | A, A | B, B => true
  | _, _ => false
  end.

Definition all : list t := [UP; DOWN; LEFT; RIGHT; SELECT; START; A; B].

Definition name (b : t) : string :=
  match b with
  | UP => "up" | DOWN => "down" | LEFT => "left" | RIGHT => "right"
  | SELECT => "select" | START => "start" | A => "a" | B => "b"
  end.

Lemma eqb_spec (x y : t) : reflect (x = y) (eqb x y).
Proof. destruct x, y; simpl; constructor; congruence. Qed.

Lemma eqb_refl (x : t) : eqb x x = true.
Proof. now destruct x. Qed.

Lemma eqb_eq (x y : t) : eqb x y = true <-> x = y.
Proof. destruct (eqb_spec x y); split; congruence. Qed.

Lemma eqb_neq (x y : t) : eqb x y = false <-> x <> y.
Proof. destruct (eqb_spec x y); split; congruence. Qed.

Lemma eqb_sym (x y : t) : eqb x y = eqb y x.
Proof. now destruct x, y. Qed.

Lemma all_complete (b : t) : In b all.
Proof. destruct b; simpl; tauto. Qed.

Lemma all_nodup : NoDup all.
Proof.
  unfold all.
  repeat (constructor; [simpl; intuition discriminate|]).
  constructor.
Qed.

End Button.

(** A held button is [Some b]; Python's [None] is [None].  The comparisons
    [==] and [!=] between two such values: *)
Definition held_eqb (x y : option Button.t) : bool :=
  match x, y with
  | Some a, Some b => Button.eqb a b
  | None, None => true
  | _, _ => false
  end.

Lemma held_eqb_spec (x y : option Button.t) : reflect (x = y) (held_eqb x y).
Proof.
  destruct x as [a|], y as [b|]; simpl; try (constructor; congruence).
  destruct (Button.eqb_spec a b); constructor; congruence.
Qed.

Lemma held_eqb_refl (x : option Button.t) : held_eqb x x = true.
Proof. destruct x; simpl; auto using Button.eqb_refl. Qed.

(** The table [keycodes]: the X key each button is mapped to. *)
Definition keycodes (b : Button.t) : string :=
  match b with
  | Button.UP => "Up" | Button.DOWN => "Down"
  | Button.LEFT => "Left" | Button.RIGHT => "Right"
  | Button.SELECT => "BackSpace" | Button.START => "Return"
  | Button.A => "x" | Button.B => "z"
  end.

(** ** Colors (the ones the game uses) *)
Module Color.
Definition RED : Z := 0x020000.
Definition GREEN : Z := 0x000200.
Definition WHITE : Z := 0x010101.
Definition OFF : Z := 0x000000.
End Color.

(** ** Python dictionaries

    A [dict] keeps its entries in insertion order, and that order is what
    [keys()] iterates over.  Assigning to a key that is present replaces the
    value in place; assigning to a new key appends.  [d[k]] and [del d[k]] on a
    missing key raise [KeyError], rendered here by [None].  A loop
    [for i in d.keys(): ... d[i] ...] visits every entry once, in order; the
    handlers below traverse the entries accordingly. *)
Module Dict.
Section Dict.
Variables (V : Type).

Definition t := list (Z * V).

Definition keys (d : t) : list Z := map fst d.

Fixpoint get (k : Z) (d : t) : option V :=
  match d with
  | [] => None
  | (k', v) :: r => if k =? k' then Some v else get k r
  end.

Fixpoint set (k : Z) (v : V) (d : t) : t :=
  match d with
  | [] => [(k, v)]
  | (k', v') :: r => if k =? k' then (k', v) :: r else (k', v') :: set k v r
  end.

(** [d[k].field = ...]: the object stored under [k] is changed in place. *)
Fixpoint update (k : Z) (f : V -> V) (d : t) : t :=
  match d with
  | [] => []
  | (k', v) :: r => if k =? k' then (k', f v) :: r else (k', v) :: update k f r
  end.

Fixpoint del (k : Z) (d : t) : option t :=
  match d with
  | [] => None
  | (k', v) :: r =>
      if k =? k' then Some r
      else match del k r with Some r' => Some ((k', v) :: r') | None => None end
  end.

Definition map_values (f : V -> V) (d : t) : t :=
  map (fun kv => (fst kv, f (snd kv))) d.

Definition values (d : t) : list V := map snd d.

End Dict.
End Dict.

(** ** Players *)

(** A subscription handle returned by the WAMP router. *)
Definition Subscription := Z.

Module PlayerInfo.

(** How long, in milliseconds, start has to be held to quit the game. *)
Definition QUIT_TIME : Z := 1500.

Record t : Type := mk {
  badge_id : Z;
  current_button : option Button.t;
  start_press_at : Z;
  selected_light : Z;
  brightness : Q;
  light_settings : list Z;
  subscriptions : list Subscription
}.

(** [PlayerInfo.__init__] *)
Definition init (badge : Z) (subs : list Subscription) : t :=
  {| badge_id := badge;
     current_button := None;
     start_press_at := 0;
     selected_light := 0;
     brightness := (1 # 10)%Q;
     light_settings := [Color.WHITE; Color.WHITE; Color.WHITE; Color.WHITE];
     subscriptions := subs |}.

Definition with_current_button (b : option Button.t) (self : t) : t :=
  {| badge_id := badge_id self;
     current_button := b;
     start_press_at := start_press_at self;
     selected_light := selected_light self;
     brightness := brightness self;
     light_settings := light_settings self;
     subscriptions := subscriptions self |}.

Definition with_light_settings (l : list Z) (self : t) : t :=
  {| badge_id := badge_id self;
     current_button := current_button self;
     start_press_at := start_press_at self;
     selected_light := selected_light self;
     brightness := brightness self;
     light_settings := l;
     subscriptions := subscriptions self |}.

Definition on_start_press (timestamp : Z) (self : t) : t :=
  {| badge_id := badge_id self;
     current_button := current_button self;
     start_press_at := timestamp;
     selected_light := selected_light self;
     brightness := brightness self;
     light_settings := light_settings self;
     subscriptions := subscriptions self |}.

(** Whether [timestamp] is more than [QUIT_TIME] after the last start press. *)
Definition start_held (timestamp : Z) (self : t) : bool :=
  timestamp - start_press_at self >? QUIT_TIME.

End PlayerInfo.

(** ** The session object *)
Module GameComponent.

Record t : Type := mk {
  players : Dict.t PlayerInfo.t;
  current_button : option Button.t;
  last_button : option Button.t;
  press_counter : Z;
  save_counter : Z
}.

(** The class attributes as they stand before any event. *)
Definition initial : t :=
  {| players := [];
     current_button := None;
     last_button := None;
     press_counter := 0;
     save_counter := 0 |}.

Definition with_players (ps : Dict.t PlayerInfo.t) (self : t) : t :=
  {| players := ps;
     current_button := current_button self;
     last_button := last_button self;
     press_counter := press_counter self;
     save_counter := save_counter self |}.

Definition with_current_button (b : option Button.t) (self : t) : t :=
  {| players := players self;
     current_button := b;
     last_button := last_button self;
     press_counter := press_counter self;
     save_counter := save_counter self |}.

Definition with_last_button (b : option Button.t) (self : t) : t :=
  {| players := players self;
     current_button := current_button self;
     last_button := b;
     press_counter := press_counter self;
     save_counter := save_counter self |}.

Definition with_press_counter (n : Z) (self : t) : t :=
  {| players := players self;
     current_button := current_button self;
     last_button := last_button self;
     press_counter := n;
     save_counter := save_counter self |}.

Definition with_save_counter (n : Z) (self : t) : t :=
  {| players := players self;
     current_button := current_button self;
     last_button := last_button self;
     press_counter := press_counter self;
     save_counter := n |}.

End GameComponent.

(** ** Calls to the collaborators *)

Inductive topic : Set :=
| Button_press (badge : Z)      (* badge.<id>.button.press *)
| Button_release (badge : Z).   (* badge.<id>.button.release *)

Inductive log_line : Set :=
| Unknown_player (badge : Z)
| Saved_state
| Pushing (b : option Button.t)
| Badge_joined (badge : Z)
| Badge_left (badge : Z).

Inductive effect : Type :=
| Print (l : log_line)
| Publish_lights (badge : Z) (colors : list Z)   (* badge.<id>.lights_static *)
| Publish_kick (badge : Z)                       (* game.kick, for GAME_ID *)
| Subscribe (t : topic)
| Unsubscribe (h : Subscription)
| Search_windows                                 (* xdo.search_windows("mGBA")[0] *)
| Keysequence (keys : string)                    (* send_keysequence_window *)
| Keysequence_down (keys : string)               (* send_keysequence_window_down *)
| Keysequence_up (keys : string).                (* send_keysequence_window_up *)

(** ** The handler monad *)

Inductive exn : Set := KeyError (k : Z).

Inductive result (A : Type) : Type :=
| Ok (a : A)
| Raise (e : exn).
Arguments Ok {A} a.
Arguments Raise {A} e.

(** What running a handler leaves behind: how it ended, the session object as
    it then stands (mutations made before an exception stay), and the calls
    it made. *)
Record ran (A : Type) : Type := Ran {
  res : result A;
  final : GameComponent.t;
  trace : list effect
}.

Definition M (A : Type) : Type := GameComponent.t -> ran A.

Definition ret {A : Type} (a : A) : M A :=
  fun s => {| res := Ok a; final := s; trace := [] |}.

Definition bind {A B : Type} (m : M A) (f : A -> M B) : M B :=
  fun s =>
    let r := m s in
    match res r with
    | Ok a =>
        let r' := f a (final r) in
        {| res := res r'; final := final r'; trace := trace r ++ trace r' |}
    | Raise e => {| res := Raise e; final := final r; trace := trace r |}
    end.

Declare Scope game_scope.
Delimit Scope game_scope with game.
Notation "x <- c1 ;; c2" := (bind c1 (fun x => c2))
  (at level 61, c1 at next level, right associativity) : game_scope.
Notation "c1 ;; c2" := (bind c1 (fun _ => c2))
  (at level 61, right associativity) : game_scope.
Local Open Scope game_scope.

Definition self : M GameComponent.t :=
  fun s => {| res := Ok s; final := s; trace := [] |}.

Definition modify (f : GameComponent.t -> GameComponent.t) : M unit :=
  fun s => {| res := Ok tt; final := f s; trace := [] |}.

Definition emit (e : effect) : M unit :=
  fun s => {| res := Ok tt; final := s; trace := [e] |}.

Definition emit_all (es : list effect) : M unit :=
  fun s => {| res := Ok tt; final := s; trace := es |}.

Definition raise {A : Type} (e : exn) : M A :=
  fun s => {| res := Raise e; final := s; trace := [] |}.

Definition print (l : log_line) : M unit := emit (Print l).

(** [self.players[badge_id]] *)
Definition player_at (badge : Z) : M PlayerInfo.t :=
  s <- self;;
  match Dict.get badge (GameComponent.players s) with
  | Some p => ret p
  | None => raise (KeyError badge)
  end.

(** [self.players[badge_id].field = ...] on an entry known to be there. *)
Definition modify_player (badge : Z) (f : PlayerInfo.t -> PlayerInfo.t) : M unit :=
  modify (fun s =>
    GameComponent.with_players (Dict.update badge f (GameComponent.players s)) s).

(** [del self.players[badge_id]] *)
Definition delete_player (badge : Z) : M unit :=
  s <- self;;
  match Dict.del badge (GameComponent.players s) with
  | Some ps => modify (GameComponent.with_players ps)
  | None => raise (KeyError badge)
  end.

(** ** The handlers of [GameComponent] *)

(** The message [set_lights] publishes for a player. *)
Definition lights_of (p : PlayerInfo.t) : effect :=
  Publish_lights (PlayerInfo.badge_id p) (PlayerInfo.light_settings p).

(** [set_lights]: publish the player's four light colors. *)
Definition set_lights (player : PlayerInfo.t) : M unit :=
  emit (lights_of player).

(** [kick]: ask the server to remove the badge from the game. *)
Definition kick (badge : Z) : M unit :=
  emit (Publish_kick badge).

(** The loop over [keycodes.keys()] that ends [push_button]: the key of the
    decided button goes down, every other key goes up. *)
Definition hold_only (d : option Button.t) : list effect :=
  map (fun i =>
         if held_eqb (Some i) d
         then Keysequence_down (keycodes i)
         else Keysequence_up (keycodes i))
      Button.all.

(** [push_button]: count the change, save the emulator state every so often,
    then hold the key of [current_button] down and let all the others go. *)
Definition push_button : M unit :=
  modify (fun s =>
    GameComponent.with_press_counter (GameComponent.press_counter s + 1) s);;
  s <- self;;
  (if GameComponent.press_counter s >? 100 then
     modify (GameComponent.with_press_counter 0);;
     emit Search_windows;;
     emit (Keysequence "Shift+F1");;
     print Saved_state;;
     modify (fun s =>
       GameComponent.with_save_counter (GameComponent.save_counter s + 1) s);;
     s <- self;;
     if GameComponent.save_counter s >? 100 then
       emit (Keysequence "Shift+F2");;
       modify (GameComponent.with_save_counter 0)
     else ret tt
   else ret tt);;
  s <- self;;
  print (Pushing (GameComponent.current_button s));;
  emit_all (hold_only (GameComponent.current_button s)).

(** The dictionary [totals] of [calculate_buttons]: its keys are the eight
    button names, in the order of [Button.all], so it is a count per button. *)
Definition totals : Type := Button.t -> Z.

Definition no_votes : totals := fun _ => 0.

(** [totals[b] += 1] *)
Definition add_vote (t : totals) (b : Button.t) : totals :=
  fun x => if Button.eqb x b then t x + 1 else t x.

(** The first loop: one vote per player that holds a button. *)
Definition count_votes (ps : Dict.t PlayerInfo.t) : totals :=
  fold_left
    (fun t kv =>
       match PlayerInfo.current_button (snd kv) with
       | Some b => add_vote t b
       | None => t
       end)
    ps no_votes.

(** The second loop, over [totals.keys()], carrying [(max, max_item)]. *)
Definition scan_step (t : totals) (acc : Z * option Button.t) (i : Button.t)
  : Z * option Button.t :=
  if t i >? fst acc then (t i, Some i) else acc.

Definition scan_from (t : totals) (acc : Z * option Button.t) (l : list Button.t)
  : Z * option Button.t :=
  fold_left (scan_step t) l acc.

Definition scan (t : totals) : Z * option Button.t :=
  scan_from t (0, None) Button.all.

(** [if self.last_button: if totals[self.last_button] == max: ...] *)
Definition prefer_last (last : option Button.t) (t : totals)
    (acc : Z * option Button.t) : option Button.t :=
  match last with
  | Some l => if t l =? fst acc then Some l else snd acc
  | None => snd acc
  end.

(** The value of [max_item] when it is compared with [self.current_button]. *)
Definition max_item (s : GameComponent.t) : option Button.t :=
  let t := count_votes (GameComponent.players s) in
  prefer_last (GameComponent.last_button s) t (scan t).

(** The last loop: green lights for the players that hold the winning button
    (or nothing, when nothing wins), red for the others. *)
Definition relight (decided : option Button.t) (p : PlayerInfo.t) : PlayerInfo.t :=
  PlayerInfo.with_light_settings
    (if held_eqb (PlayerInfo.current_button p) decided
     then [Color.GREEN; Color.GREEN; Color.GREEN; Color.GREEN]
     else [Color.RED; Color.RED; Color.RED; Color.RED])
    p.

Definition relight_all : M unit :=
  s <- self;;
  let ps := Dict.map_values (relight (GameComponent.current_button s))
                            (GameComponent.players s) in
  modify (GameComponent.with_players ps);;
  emit_all (map lights_of (Dict.values ps)).

Definition calculate_buttons : M unit :=
  s <- self;;
  let max_item := max_item s in
  (if negb (held_eqb max_item (GameComponent.current_button s)) then
     modify (GameComponent.with_current_button max_item);;
     push_button
   else ret tt);;
  relight_all.

Definition on_button_release (button : Button.t) (timestamp : Z) (badge : Z)
  : M unit :=
  s <- self;;
  match Dict.get badge (GameComponent.players s) with
  | None => print (Unknown_player badge)
  | Some player =>
      (if Button.eqb button Button.START then
         if PlayerInfo.start_held timestamp player then kick badge else ret tt
       else ret tt);;
      modify_player badge (PlayerInfo.with_current_button None);;
      modify (GameComponent.with_last_button None);;
      calculate_buttons
  end.

Definition on_button_press (button : Button.t) (timestamp : Z) (badge : Z)
  : M unit :=
  s <- self;;
  match Dict.get badge (GameComponent.players s) with
  | None => print (Unknown_player badge)
  | Some _ =>
      modify_player badge (PlayerInfo.with_current_button (Some button));;
      (if Button.eqb button Button.START then
         modify_player badge (PlayerInfo.on_start_press timestamp)
       else ret tt);;
      modify (GameComponent.with_last_button (Some button));;
      calculate_buttons
  end.

(** [on_player_join]; the two handles are what the router answers to the two
    [subscribe] calls. *)
Definition on_player_join (badge : Z) (press_sub release_sub : Subscription)
  : M unit :=
  print (Badge_joined badge);;
  emit (Subscribe (Button_press badge));;
  emit (Subscribe (Button_release badge));;
  modify (fun s =>
    GameComponent.with_players
      (Dict.set badge (PlayerInfo.init badge [press_sub; release_sub])
                (GameComponent.players s)) s);;
  p <- player_at badge;;
  set_lights p.

Definition on_player_leave (badge : Z) : M unit :=
  print (Badge_left badge);;
  p <- player_at badge;;
  emit_all (map Unsubscribe (PlayerInfo.subscriptions p));;
  modify_player badge
    (PlayerInfo.with_light_settings [Color.OFF; Color.OFF; Color.OFF; Color.OFF]);;
  p <- player_at badge;;
  set_lights p;;
  delete_player badge.

(** ** Events *)

Inductive event : Set :=
| Join (badge : Z) (press_sub release_sub : Subscription)
| Leave (badge : Z)
| Press (button : Button.t) (timestamp : Z) (badge : Z)
| Release (button : Button.t) (timestamp : Z) (badge : Z).

Definition handle (e : event) : M unit :=
  match e with
  | Join badge p r => on_player_join badge p r
  | Leave badge => on_player_leave badge
  | Press button timestamp badge => on_button_press button timestamp badge
  | Release button timestamp badge => on_button_release button timestamp badge
  end.

(** Events are handled one at a time, in arrival order. *)
Fixpoint run (es : list event) : M unit :=
  match es with
  | [] => ret tt
  | e :: r => handle e;; run r
  end.

Definition is_button_event (e : event) : bool :=
  match e with
  | Press _ _ _ | Release _ _ _ => true
  | _ => false
  end.

(** The badge an event is about. *)
Definition badge_of (e : event) : Z :=
  match e with
  | Join badge _ _ | Leave badge | Press _ _ badge | Release _ _ badge => badge
  end.

Definition registered (badge : Z) (s : GameComponent.t) : Prop :=
  Dict.get badge (GameComponent.players s) <> None.

Definition decided (s : GameComponent.t) : option Button.t :=
  GameComponent.current_button s.

Example scenario_majority :
  decided (final (run [Join 1 10 11; Join 2 20 21; Join 3 30 31;
                       Press Button.A 0 1; Press Button.B 0 2; Press Button.A 0 3]
                      GameComponent.initial)) = Some Button.A.
Proof. vm_compute. reflexivity. Qed.

Example scenario_recent_wins_tie :
  decided (final (run [Join 1 10 11; Join 2 20 21;
                       Press Button.B 0 1; Press Button.B 0 2; Press Button.A 5 1]
                      GameComponent.initial)) = Some Button.A.
Proof. vm_compute. reflexivity. Qed.


(** ** Laws of the handler monad *)

(** The calls [l], then whatever [r] did. *)
Definition after (l : list effect) (A : Type) (r : ran A) : ran A :=
  {| res := res r; final := final r; trace := l ++ trace r |}.
Arguments after l {A} r.

Section Laws.
Variables A B C : Type.

Lemma after_nil (r : ran A) : after [] r = r.
Proof. destruct r; reflexivity. Qed.

Lemma after_after (l l' : list effect) (r : ran A) :
  after l (after l' r) = after (l ++ l') r.
Proof. unfold after. cbn. rewrite app_assoc. reflexivity. Qed.

Lemma bind_ret (a : A) (k : A -> M B) (s : GameComponent.t) :
  bind (ret a) k s = k a s.
Proof. unfold bind, ret. cbn. destruct (k a s); reflexivity. Qed.

Lemma bind_self (k : GameComponent.t -> M B) (s : GameComponent.t) :
  bind self k s = k s s.
Proof. unfold bind, self. cbn. destruct (k s s); reflexivity. Qed.

Lemma bind_modify (f : GameComponent.t -> GameComponent.t) (k : unit -> M B)
    (s : GameComponent.t) :
  bind (modify f) k s = k tt (f s).
Proof. unfold bind, modify. cbn. destruct (k tt (f s)); reflexivity. Qed.

Lemma bind_emit_all (es : list effect) (k : unit -> M B) (s : GameComponent.t) :
  bind (emit_all es) k s = after es (k tt s).
Proof. reflexivity. Qed.

Lemma bind_emit (e : effect) (k : unit -> M B) (s : GameComponent.t) :
  bind (emit e) k s = after [e] (k tt s).
Proof. reflexivity. Qed.

Lemma bind_raise (e : exn) (k : A -> M B) (s : GameComponent.t) :
  bind (raise e) k s = raise e s.
Proof. reflexivity. Qed.

Lemma bind_assoc (m : M A) (f : A -> M B) (g : B -> M C) (s : GameComponent.t) :
  bind (bind m f) g s = bind m (fun a => bind (f a) g) s.
Proof.
  unfold bind. destruct (m s) as [[a|e] s1 l1]; cbn; [|reflexivity].
  destruct (f a s1) as [[b|e] s2 l2]; cbn; [|reflexivity].
  rewrite app_assoc. reflexivity.
Qed.

(** A computation that cannot raise runs through to what follows it. *)
Lemma bind_ok (m : M A) (k : A -> M B) (s : GameComponent.t) (a : A) :
  res (m s) = Ok a -> bind m k s = after (trace (m s)) (k a (final (m s))).
Proof. unfold bind. intros ->. reflexivity. Qed.

End Laws.

Ltac step :=
  repeat (cbv beta;
          first [ rewrite bind_assoc
                | rewrite bind_self
                | rewrite bind_modify
                | rewrite bind_emit
                | rewrite bind_emit_all
                | rewrite bind_ret
                | rewrite bind_raise
                | rewrite after_after ]);
  cbv beta.

(** ** How the handlers end: stepping lemmas *)

(** [push_button], step by step. *)
Lemma push_button_runs (s : GameComponent.t) :
  push_button s =
  let n := GameComponent.press_counter s + 1 in
  let k := GameComponent.save_counter s + 1 in
  let pushing :=
    Print (Pushing (GameComponent.current_button s))
    :: hold_only (GameComponent.current_button s) in
  if n >? 100 then
    if k >? 100 then
      {| res := Ok tt;
         final := GameComponent.with_save_counter 0
                    (GameComponent.with_press_counter 0 s);
         trace := [Search_windows; Keysequence "Shift+F1"; Print Saved_state;
                   Keysequence "Shift+F2"] ++ pushing |}
    else
      {| res := Ok tt;
         final := GameComponent.with_save_counter k
                    (GameComponent.with_press_counter 0 s);
         trace := [Search_windows; Keysequence "Shift+F1"; Print Saved_state]
                  ++ pushing |}
  else
    {| res := Ok tt;
       final := GameComponent.with_press_counter n s;
       trace := pushing |}.
Proof.
  cbv zeta. unfold push_button, print. step.
  cbn [GameComponent.press_counter GameComponent.with_press_counter].
  destruct (GameComponent.press_counter s + 1 >? 100); step;
    cbn [GameComponent.save_counter GameComponent.with_save_counter
         GameComponent.with_press_counter];
    [destruct (GameComponent.save_counter s + 1 >? 100); step|];
    reflexivity.
Qed.

#[global] Arguments push_button : simpl never.
#[global] Arguments relight_all : simpl never.
#[global] Arguments calculate_buttons : simpl never.
#[global] Arguments hold_only : simpl never.
#[global] Arguments max_item : simpl never.

Lemma push_button_ok (s : GameComponent.t) : res (push_button s) = Ok tt.
Proof.
  rewrite push_button_runs. cbv zeta.
  destruct (_ >? 100); [destruct (_ >? 100)|]; reflexivity.
Qed.

Lemma push_button_frame (s : GameComponent.t) :
  GameComponent.players (final (push_button s)) = GameComponent.players s /\
  GameComponent.current_button (final (push_button s)) = GameComponent.current_button s /\
  GameComponent.last_button (final (push_button s)) = GameComponent.last_button s.
Proof.
  rewrite push_button_runs. cbv zeta.
  destruct (_ >? 100); [destruct (_ >? 100)|]; cbn; auto.
Qed.

Lemma relight_all_runs (s : GameComponent.t) :
  relight_all s =
  let ps := Dict.map_values (relight (GameComponent.current_button s))
                            (GameComponent.players s) in
  {| res := Ok tt;
     final := GameComponent.with_players ps s;
     trace := map lights_of (Dict.values ps) |}.
Proof. unfold relight_all. step. reflexivity. Qed.

(** The recomputation: either the decision stands and only the lights are
    set, or it changes, is pushed, and then the lights are set. *)
Lemma calculate_buttons_runs (s : GameComponent.t) :
  calculate_buttons s =
  if held_eqb (max_item s) (GameComponent.current_button s)
  then relight_all s
  else
    let pushed := push_button (GameComponent.with_current_button (max_item s) s) in
    after (trace pushed) (relight_all (final pushed)).
Proof.
  unfold calculate_buttons. step. cbv zeta.
  destruct (held_eqb (max_item s) (GameComponent.current_button s)); cbn [negb]; step.
  - reflexivity.
  - rewrite (bind_ok _ _ _ (push_button_ok _)). reflexivity.
Qed.

Lemma calculate_buttons_ok (s : GameComponent.t) : res (calculate_buttons s) = Ok tt.
Proof.
  rewrite calculate_buttons_runs. cbv zeta.
  destruct (held_eqb _ _); cbn [after res]; rewrite relight_all_runs; reflexivity.
Qed.

Lemma calculate_buttons_decided (s : GameComponent.t) :
  GameComponent.current_button (final (calculate_buttons s)) = max_item s.
Proof.
  rewrite calculate_buttons_runs. cbv zeta.
  destruct (held_eqb_spec (max_item s) (GameComponent.current_button s)) as [E|E];
    cbn [after final]; rewrite relight_all_runs; cbn.
  - auto.
  - apply push_button_frame.
Qed.

Lemma calculate_buttons_players (s : GameComponent.t) :
  GameComponent.players (final (calculate_buttons s))
  = Dict.map_values (relight (max_item s)) (GameComponent.players s).
Proof.
  rewrite calculate_buttons_runs. cbv zeta.
  destruct (held_eqb_spec (max_item s) (GameComponent.current_button s)) as [E|E];
    cbn [after final]; rewrite relight_all_runs; cbn.
  - rewrite E. reflexivity.
  - destruct (push_button_frame
                (GameComponent.with_current_button (max_item s) s)) as (-> & -> & _).
    reflexivity.
Qed.

Lemma calculate_buttons_last_button (s : GameComponent.t) :
  GameComponent.last_button (final (calculate_buttons s)) = GameComponent.last_button s.
Proof.
  rewrite calculate_buttons_runs. cbv zeta.
  destruct (held_eqb _ _); cbn [after final]; rewrite relight_all_runs; cbn.
  - reflexivity.
  - destruct (push_button_frame
                (GameComponent.with_current_button (max_item s) s)) as (_ & _ & ->).
    reflexivity.
Qed.

(** A recomputation that finds the decision unchanged only sets the lights. *)
Lemma calculate_buttons_unchanged (s : GameComponent.t) :
  max_item s = GameComponent.current_button s ->
  calculate_buttons s =
  let ps := Dict.map_values (relight (GameComponent.current_button s))
                            (GameComponent.players s) in
  {| res := Ok tt;
     final := GameComponent.with_players ps s;
     trace := map lights_of (Dict.values ps) |}.
Proof.
  intros E. rewrite calculate_buttons_runs, E, held_eqb_refl.
  apply relight_all_runs.
Qed.

(** ** Arbitration: what the vote counts are and who wins *)

(** The largest count in [t] over the buttons of [l], and at least [m0]. *)
Definition top (t : totals) (l : list Button.t) (m0 : Z) : Z :=
  fold_right (fun b m => Z.max (t b) m) m0 l.

Definition max_count (t : totals) : Z := top t Button.all 0.

(** The number of players that hold button [b]. *)
Definition holders (b : Button.t) (ps : Dict.t PlayerInfo.t) : nat :=
  length (filter (fun kv => held_eqb (PlayerInfo.current_button (snd kv)) (Some b)) ps).

(** The first button, in the order up, down, left, right, select, start, a,
    b, whose count is the largest one; nothing when nobody holds a button. *)
Definition first_tied_in_button_order (t : totals) : option Button.t :=
  if max_count t =? 0 then None
  else find (fun b => t b =? max_count t) Button.all.

(** Majority, ties going to the button pressed last. *)
Definition arbitration (last : option Button.t) (t : totals) : option Button.t :=
  match last with
  | Some l => if t l =? max_count t then Some l else first_tied_in_button_order t
  | None => first_tied_in_button_order t
  end.

Definition strictly_maximal (t : totals) (a : Button.t) : Prop :=
  forall b, b <> a -> t b < t a.

Section Scan.
Variable t : totals.

Lemma top_ge (l : list Button.t) (m0 : Z) : m0 <= top t l m0.
Proof. induction l as [|b l IH]; simpl; lia. Qed.

Lemma top_bound (l : list Button.t) (m0 : Z) (b : Button.t) :
  In b l -> t b <= top t l m0.
Proof.
  induction l as [|c l IH]; simpl; [tauto|].
  intros [->|H]; [lia|]. specialize (IH H). lia.
Qed.

Lemma top_max (l : list Button.t) (x m0 : Z) :
  top t l (Z.max x m0) = Z.max x (top t l m0).
Proof. induction l as [|b l IH]; simpl; [reflexivity|]. rewrite IH. lia. Qed.

Lemma scan_from_max (l : list Button.t) (acc : Z * option Button.t) :
  fst (scan_from t acc l) = top t l (fst acc).
Proof.
  revert acc. induction l as [|b l IH]; intros acc; [reflexivity|].
  change (scan_from t acc (b :: l)) with (scan_from t (scan_step t acc b) l).
  rewrite IH. cbn [top fold_right]. fold (top t l (fst acc)).
  rewrite <- top_max. f_equal. unfold scan_step.
  destruct (Z.gtb_spec (t b) (fst acc)) as [G|G]; cbn [fst]; lia.
Qed.

Lemma scan_from_item (l : list Button.t) (acc : Z * option Button.t) :
  snd (scan_from t acc l) =
  if top t l (fst acc) >? fst acc
  then find (fun b => t b =? top t l (fst acc)) l
  else snd acc.
Proof.
  revert acc. induction l as [|b l IH]; intros acc.
  - cbn. rewrite Z.gtb_ltb, Z.ltb_irrefl. reflexivity.
  - change (scan_from t acc (b :: l)) with (scan_from t (scan_step t acc b) l).
    rewrite IH. cbn [top fold_right find]. fold (top t l (fst acc)).
    unfold scan_step.
    assert (T : Z.max (t b) (top t l (fst acc)) = top t l (Z.max (t b) (fst acc)))
      by (symmetry; apply top_max).
    destruct (Z.gtb_spec (t b) (fst acc)) as [G|G]; cbn [fst snd].
    + replace (Z.max (t b) (top t l (fst acc))) with (top t l (t b))
        by (rewrite T; f_equal; lia).
      pose proof (top_ge l (t b)) as Hge.
      destruct (Z.gtb_spec (top t l (t b)) (t b)) as [G'|G'].
      * destruct (Z.gtb_spec (top t l (t b)) (fst acc)); [|lia].
        destruct (Z.eqb_spec (t b) (top t l (t b))); [lia|reflexivity].
      * destruct (Z.gtb_spec (top t l (t b)) (fst acc)); [|lia].
        destruct (Z.eqb_spec (t b) (top t l (t b))); [reflexivity|lia].
    + replace (Z.max (t b) (top t l (fst acc))) with (top t l (fst acc))
        by (rewrite T; f_equal; lia).
      pose proof (top_ge l (fst acc)) as Hge.
      destruct (Z.gtb_spec (top t l (fst acc)) (fst acc)) as [G'|G'];
        [|reflexivity].
      destruct (Z.eqb_spec (t b) (top t l (fst acc))); [lia|reflexivity].
Qed.

Lemma scan_max : fst (scan t) = max_count t.
Proof. unfold scan. rewrite scan_from_max. reflexivity. Qed.

Lemma scan_item : snd (scan t) = first_tied_in_button_order t.
Proof.
  unfold scan. rewrite scan_from_item. cbn [fst snd].
  unfold first_tied_in_button_order. fold (max_count t).
  pose proof (top_ge Button.all 0) as Hge. fold (max_count t) in Hge.
  destruct (Z.gtb_spec (max_count t) 0), (Z.eqb_spec (max_count t) 0);
    try lia; reflexivity.
Qed.

Lemma max_count_bound (b : Button.t) : t b <= max_count t.
Proof. apply top_bound, Button.all_complete. Qed.

Lemma prefer_last_scan (last : option Button.t) :
  prefer_last last t (scan t) = arbitration last t.
Proof.
  unfold prefer_last, arbitration. rewrite scan_max, scan_item. reflexivity.
Qed.

Lemma find_tied_sound (l : list Button.t) (m : Z) (a : Button.t) :
  find (fun b => t b =? m) l = Some a -> t a = m.
Proof. intros H. apply find_some in H. lia. Qed.

Lemma arbitration_maximal (last : option Button.t) (a : Button.t) :
  arbitration last t = Some a -> t a = max_count t.
Proof.
  unfold arbitration, first_tied_in_button_order.
  destruct last as [l|].
  - destruct (Z.eqb_spec (t l) (max_count t)) as [E|E].
    + intros [= <-]. exact E.
    + destruct (max_count t =? 0); [discriminate|apply find_tied_sound].
  - destruct (max_count t =? 0); [discriminate|apply find_tied_sound].
Qed.

Lemma top_attained (l : list Button.t) (m0 : Z) :
  top t l m0 = m0 \/ exists a, In a l /\ t a = top t l m0.
Proof.
  induction l as [|b l IH]; cbn [top fold_right In]; [auto|].
  fold (top t l m0).
  destruct (Z.max_spec (t b) (top t l m0)) as [[L ->]|[L ->]].
  - destruct IH as [E|(a & I & E)]; [auto|]. right. exists a. auto.
  - right. exists b. auto.
Qed.

Lemma max_count_attained : 0 < max_count t -> exists a, t a = max_count t.
Proof.
  intros H. destruct (top_attained Button.all 0) as [E|(a & _ & E)].
  - unfold max_count in H. lia.
  - exists a. exact E.
Qed.

Lemma arbitration_strict (last : option Button.t) (a : Button.t) :
  strictly_maximal t a -> 0 < t a -> arbitration last t = Some a.
Proof.
  intros S P.
  assert (M : t a = max_count t).
  { pose proof (max_count_bound a) as Ha.
    destruct (max_count_attained ltac:(lia)) as [c Hc].
    destruct (Button.eqb_spec c a) as [->|N]; [exact Hc|].
    specialize (S c N). lia. }
  assert (U : forall c, t c = max_count t -> c = a).
  { intros c Hc. destruct (Button.eqb_spec c a) as [|N]; [assumption|].
    specialize (S c N). lia. }
  assert (F : first_tied_in_button_order t = Some a).
  { unfold first_tied_in_button_order.
    destruct (Z.eqb_spec (max_count t) 0); [lia|].
    destruct (find (fun b => t b =? max_count t) Button.all) as [c|] eqn:E.
    - f_equal. apply U. eapply find_tied_sound; eauto.
    - exfalso. pose proof (find_none _ _ E a (Button.all_complete a)) as N.
      simpl in N. lia. }
  unfold arbitration. destruct last as [l|]; [|exact F].
  destruct (Z.eqb_spec (t l) (max_count t)) as [E|E]; [|exact F].
  f_equal. auto.
Qed.

End Scan.

Lemma count_votes_from (ps : Dict.t PlayerInfo.t) (t0 : totals) (b : Button.t) :
  fold_left
    (fun t kv =>
       match PlayerInfo.current_button (snd kv) with
       | Some b => add_vote t b
       | None => t
       end) ps t0 b
  = t0 b + Z.of_nat (holders b ps).
Proof.
  revert t0. induction ps as [|[k p] ps IH]; intros t0; cbn [fold_left].
  - unfold holders. simpl. lia.
  - rewrite IH. unfold holders. cbn [filter snd].
    destruct (PlayerInfo.current_button p) as [c|]; cbn [held_eqb].
    + unfold add_vote. rewrite (Button.eqb_sym c b).
      destruct (Button.eqb b c); cbn [length]; lia.
    + lia.
Qed.

Lemma count_votes_holders (ps : Dict.t PlayerInfo.t) (b : Button.t) :
  count_votes ps b = Z.of_nat (holders b ps).
Proof. unfold count_votes. rewrite count_votes_from. reflexivity. Qed.

Lemma max_item_arbitration (s : GameComponent.t) :
  max_item s =
  arbitration (GameComponent.last_button s) (count_votes (GameComponent.players s)).
Proof. unfold max_item. apply prefer_last_scan. Qed.

(** *** C1 *)

(** The first tied button in the order the registry lists its players: the
    button of the first player whose button has the largest count. *)
Definition first_tied_in_registry_order (ps : Dict.t PlayerInfo.t) (t : totals)
  : option Button.t :=
  match
    find (fun kv =>
            match PlayerInfo.current_button (snd kv) with
            | Some b => t b =? max_count t
            | None => false
            end) ps
  with
  | Some kv => PlayerInfo.current_button (snd kv)
  | None => None
  end.

(** C1 as the specification words it, for the state [s] the recomputation starts
    from and the decision [d] it ends with. *)
Definition winner_by_registry_order (s : GameComponent.t) (d : option Button.t)
  : Prop :=
  let t := count_votes (GameComponent.players s) in
  (exists a, d = Some a /\ strictly_maximal t a) \/
  (exists l, GameComponent.last_button s = Some l /\ t l = max_count t /\ d = Some l) \/
  ((forall l, GameComponent.last_button s = Some l -> t l <> max_count t) /\
   d = first_tied_in_registry_order (GameComponent.players s) t).

(** Badge 1 holds b, badge 2 holds a, badge 3 pressed and released up. *)
Definition tied_b_then_a : GameComponent.t :=
  final (run [Join 1 10 11; Join 2 20 21; Join 3 30 31;
              Press Button.B 0 1; Press Button.A 1 2;
              Press Button.UP 2 3; Release Button.UP 3 3]
             GameComponent.initial).

(** C1, counterexample: with badge 1 (first in the registry) holding b, badge
    2 holding a and no last button, a and b tie with one vote each; the
    recomputation decides a, the earlier of the two in the fixed button order,
    not b, the first tied button in registry order. *)
Lemma tie_not_broken_by_registry_order :
  decided (final (calculate_buttons tied_b_then_a)) = Some Button.A /\
  first_tied_in_registry_order
    (GameComponent.players tied_b_then_a)
    (count_votes (GameComponent.players tied_b_then_a)) = Some Button.B /\
  ~ winner_by_registry_order tied_b_then_a
      (decided (final (calculate_buttons tied_b_then_a))).
Proof.
  split; [vm_compute; reflexivity|].
  split; [vm_compute; reflexivity|].
  unfold winner_by_registry_order.
  replace (decided (final (calculate_buttons tied_b_then_a)))
    with (Some Button.A) by (vm_compute; reflexivity).
  intros [[a [E S]]|[[l [E _]]|[_ E]]].
  - injection E as <-. specialize (S Button.B ltac:(discriminate)).
    vm_compute in S. discriminate.
  - vm_compute in E. discriminate.
  - vm_compute in E. discriminate.
Qed.

(** C1, as the code has it: after the recomputation the decided button is the
    one with the most votes (a vote being a player that holds the button); a
    tie goes to the last pressed button when it is among the tied ones, and
    otherwise to the first tied button in the fixed order up, down, left,
    right, select, start, a, b; nothing is decided when nobody holds a button
    and there is no last button.  Whatever is decided has the largest count,
    and a button with strictly more votes than every other one is decided. *)
Theorem calculate_buttons_majority (s : GameComponent.t) :
  let t := count_votes (GameComponent.players s) in
  let d := decided (final (calculate_buttons s)) in
  (forall b, t b = Z.of_nat (holders b (GameComponent.players s))) /\
  (forall b, t b <= max_count t) /\
  d = arbitration (GameComponent.last_button s) t /\
  (forall a, d = Some a -> t a = max_count t) /\
  (forall a, strictly_maximal t a -> d = Some a).
Proof.
  intros t d.
  assert (D : d = arbitration (GameComponent.last_button s) t).
  { unfold d, decided. rewrite calculate_buttons_decided.
    apply max_item_arbitration. }
  assert (C : forall b, t b = Z.of_nat (holders b (GameComponent.players s)))
    by (intros b; apply count_votes_holders).
  repeat split; auto.
  - intros b. apply max_count_bound.
  - intros a E. rewrite D in E. eapply arbitration_maximal; eauto.
  - intros a S. rewrite D. apply arbitration_strict; [exact S|].
    destruct a; [specialize (S Button.DOWN ltac:(discriminate)); rewrite (C Button.DOWN) in S; lia
                |specialize (S Button.UP ltac:(discriminate)); rewrite (C Button.UP) in S; lia..].
Qed.

(** *** C2 *)

(** A badge joins, presses a and leaves: the registry is empty again, the
    last button is still a. *)
Definition everybody_left : GameComponent.t :=
  final (run [Join 1 10 11; Press Button.A 0 1; Leave 1] GameComponent.initial).

(** C2, counterexample: with no player registered and a as the last button,
    the recomputation decides a, not nothing. *)
Lemma empty_registry_decides_last_button :
  GameComponent.players everybody_left = [] /\
  GameComponent.last_button everybody_left = Some Button.A /\
  decided (final (calculate_buttons everybody_left)) = Some Button.A /\
  decided (final (calculate_buttons everybody_left)) <> None.
Proof. vm_compute. repeat split; discriminate. Qed.

(** C2, as the code has it: with no player registered every count is zero,
    and so is the maximum; the recomputation therefore decides the last
    button, whatever it is (its zero votes equal the maximum), and nothing
    exactly when there is no last button. *)
Theorem calculate_buttons_no_players (s : GameComponent.t) :
  GameComponent.players s = [] ->
  decided (final (calculate_buttons s)) = GameComponent.last_button s /\
  (GameComponent.last_button s = None ->
   decided (final (calculate_buttons s)) = None).
Proof.
  intros E.
  assert (D : decided (final (calculate_buttons s)) = GameComponent.last_button s).
  { unfold decided. rewrite calculate_buttons_decided. unfold max_item.
    rewrite E. destruct (GameComponent.last_button s); reflexivity. }
  split; [exact D|]. intros N. rewrite D. exact N.
Qed.

Lemma calculate_buttons_no_players_witness :
  decided (final (calculate_buttons GameComponent.initial))
    = GameComponent.last_button GameComponent.initial /\
  (GameComponent.last_button GameComponent.initial = None ->
   decided (final (calculate_buttons GameComponent.initial)) = None).
Proof. apply (calculate_buttons_no_players GameComponent.initial). reflexivity. Defined.

(** *** C3 *)

Lemma relight_button (d : option Button.t) (p : PlayerInfo.t) :
  PlayerInfo.current_button (relight d p) = PlayerInfo.current_button p.
Proof. reflexivity. Qed.

Lemma relight_twice (d : option Button.t) (p : PlayerInfo.t) :
  relight d (relight d p) = relight d p.
Proof. reflexivity. Qed.

Lemma map_values_relight_twice (d : option Button.t) (ps : Dict.t PlayerInfo.t) :
  Dict.map_values (relight d) (Dict.map_values (relight d) ps)
  = Dict.map_values (relight d) ps.
Proof.
  unfold Dict.map_values. rewrite map_map. apply map_ext. intros [k p]. reflexivity.
Qed.

Lemma count_votes_relight (d : option Button.t) (ps : Dict.t PlayerInfo.t) :
  count_votes (Dict.map_values (relight d) ps) = count_votes ps.
Proof.
  unfold count_votes. generalize no_votes.
  induction ps as [|[k p] ps IH]; intros t0; cbn [Dict.map_values map fold_left];
    [reflexivity|].
  apply IH.
Qed.

Lemma with_players_same (s : GameComponent.t) :
  GameComponent.with_players (GameComponent.players s) s = s.
Proof. destruct s; reflexivity. Qed.

Lemma max_item_stable (s : GameComponent.t) :
  max_item (final (calculate_buttons s)) = max_item s.
Proof.
  unfold max_item.
  rewrite calculate_buttons_players, calculate_buttons_last_button,
    count_votes_relight.
  reflexivity.
Qed.

(** The calls [push_button] makes: the log lines and the xdo calls. *)
Definition is_push (e : effect) : bool :=
  match e with
  | Print (Pushing _) | Print Saved_state => true
  | Search_windows | Keysequence _ | Keysequence_down _ | Keysequence_up _ => true
  | _ => false
  end.

Lemma lights_not_push (l : list PlayerInfo.t) :
  filter is_push (map lights_of l) = [].
Proof. induction l as [|p l IH]; [reflexivity|exact IH]. Qed.

(** C3: recomputing a second time, with nothing changed in between, decides
    the same button, leaves the whole session object as the first
    recomputation left it (the change counter included), and calls
    [push_button] no more: all it does is publish every player's lights
    again. *)
Theorem calculate_buttons_idempotent (s : GameComponent.t) :
  let once := calculate_buttons s in
  let twice := calculate_buttons (final once) in
  res twice = Ok tt /\
  decided (final twice) = decided (final once) /\
  final twice = final once /\
  trace twice = map lights_of (Dict.values (GameComponent.players (final once))) /\
  filter is_push (trace twice) = [].
Proof.
  intros once twice.
  assert (E : max_item (final once) = GameComponent.current_button (final once)).
  { unfold once. rewrite max_item_stable. symmetry. apply calculate_buttons_decided. }
  assert (P : Dict.map_values (relight (GameComponent.current_button (final once)))
                (GameComponent.players (final once))
              = GameComponent.players (final once)).
  { unfold once. rewrite calculate_buttons_decided, calculate_buttons_players.
    apply map_values_relight_twice. }
  assert (T : twice = {| res := Ok tt; final := final once;
                         trace := map lights_of
                                    (Dict.values (GameComponent.players (final once))) |}).
  { unfold twice. rewrite (calculate_buttons_unchanged _ E). cbv zeta.
    rewrite P, with_players_same. reflexivity. }
  rewrite T. cbn [res final trace]. repeat split.
  apply lights_not_push.
Qed.

(** ** Dictionary facts *)

Section DictFacts.
Variable V : Type.
Implicit Types (d : Dict.t V) (k : Z) (f : V -> V).

Lemma get_update_same d k f v :
  Dict.get k d = Some v -> Dict.get k (Dict.update k f d) = Some (f v).
Proof.
  induction d as [|[k' v'] d IH]; cbn [Dict.get Dict.update]; [discriminate|].
  destruct (Z.eqb_spec k k') as [->|N]; cbn [Dict.get].
  - rewrite Z.eqb_refl. congruence.
  - destruct (Z.eqb_spec k k'); [contradiction|]. exact IH.
Qed.

Lemma get_update_none d k k' f :
  Dict.get k d = None -> Dict.get k (Dict.update k' f d) = None.
Proof.
  induction d as [|[k0 v0] d IH]; cbn [Dict.get Dict.update]; [reflexivity|].
  destruct (Z.eqb_spec k k0) as [->|N]; [discriminate|].
  intros H. destruct (k' =? k0); cbn [Dict.get];
    destruct (Z.eqb_spec k k0); try contradiction; auto.
Qed.

Lemma get_map_values d k f :
  Dict.get k (Dict.map_values f d) = option_map f (Dict.get k d).
Proof.
  induction d as [|[k' v'] d IH]; cbn [Dict.get Dict.map_values map fst snd];
    [reflexivity|].
  destruct (k =? k'); [reflexivity|exact IH].
Qed.

Lemma keys_update d k f : Dict.keys (Dict.update k f d) = Dict.keys d.
Proof.
  induction d as [|[k' v'] d IH]; cbn [Dict.update]; [reflexivity|].
  unfold Dict.keys in *. destruct (k =? k'); cbn [map fst]; congruence.
Qed.

Lemma keys_map_values d f : Dict.keys (Dict.map_values f d) = Dict.keys d.
Proof.
  unfold Dict.keys, Dict.map_values. rewrite map_map. reflexivity.
Qed.

Lemma get_in_keys d k : Dict.get k d <> None <-> In k (Dict.keys d).
Proof.
  induction d as [|[k' v'] d IH]; cbn [Dict.get Dict.keys map fst In].
  - split; [congruence|tauto].
  - destruct (Z.eqb_spec k k') as [->|N].
    + split; [auto|discriminate].
    + rewrite IH. unfold Dict.keys. split; [auto|].
      intros [E|H]; [symmetry in E; contradiction|exact H].
Qed.

Lemma keys_set_present d k v :
  Dict.get k d <> None -> Dict.keys (Dict.set k v d) = Dict.keys d.
Proof.
  induction d as [|[k' v'] d IH]; cbn [Dict.get Dict.set]; [congruence|].
  unfold Dict.keys in *. destruct (k =? k'); cbn [map fst]; [reflexivity|].
  intros H. f_equal. auto.
Qed.

Lemma keys_set_absent d k v :
  Dict.get k d = None -> Dict.keys (Dict.set k v d) = Dict.keys d ++ [k].
Proof.
  induction d as [|[k' v'] d IH]; cbn [Dict.get Dict.set]; [reflexivity|].
  unfold Dict.keys in *. destruct (k =? k'); cbn [map fst app]; [discriminate|].
  intros H. f_equal. auto.
Qed.

Lemma get_set_same d k v : Dict.get k (Dict.set k v d) = Some v.
Proof.
  induction d as [|[k' v'] d IH]; cbn [Dict.get Dict.set].
  - rewrite Z.eqb_refl. reflexivity.
  - destruct (Z.eqb_spec k k') as [->|N]; cbn [Dict.get].
    + rewrite Z.eqb_refl. reflexivity.
    + destruct (Z.eqb_spec k k'); [contradiction|exact IH].
Qed.

Lemma del_absent d k : Dict.get k d = None -> Dict.del k d = None.
Proof.
  induction d as [|[k' v'] d IH]; cbn [Dict.get Dict.del]; [reflexivity|].
  destruct (k =? k'); [discriminate|]. intros H. rewrite (IH H). reflexivity.
Qed.

Lemma del_present d k :
  Dict.get k d <> None ->
  exists d', Dict.del k d = Some d' /\ length d' = pred (length d).
Proof.
  induction d as [|[k' v'] d IH]; cbn [Dict.get Dict.del]; [congruence|].
  destruct (k =? k'); [eauto|].
  intros H. destruct (IH H) as (d' & -> & L).
  eexists; split; [reflexivity|]. cbn [length]. rewrite L.
  destruct d; [cbn in H; congruence|reflexivity].
Qed.

Lemma get_del d d' k :
  NoDup (Dict.keys d) -> Dict.del k d = Some d' -> Dict.get k d' = None.
Proof.
  revert d'. induction d as [|[k' v'] d IH]; cbn [Dict.del]; [discriminate|].
  intros d' N. inversion N as [|? ? N1 N2]; subst.
  destruct (Z.eqb_spec k k') as [->|E].
  - intros [= <-]. destruct (Dict.get k' d) eqn:G; [|reflexivity].
    exfalso. apply N1. apply get_in_keys. congruence.
  - destruct (Dict.del k d) as [r|]; [|discriminate].
    intros [= <-]. cbn [Dict.get]. destruct (Z.eqb_spec k k'); [contradiction|].
    apply IH; auto.
Qed.

End DictFacts.

(** ** Releasing a button, and the quit rule *)

#[global] Arguments on_button_release : simpl never.
#[global] Arguments on_button_press : simpl never.
#[global] Arguments on_player_join : simpl never.
#[global] Arguments on_player_leave : simpl never.

(** The session object just before the recomputation that ends a release. *)
Definition released (badge : Z) (s : GameComponent.t) : GameComponent.t :=
  GameComponent.with_last_button None
    (GameComponent.with_players
       (Dict.update badge (PlayerInfo.with_current_button None)
                    (GameComponent.players s)) s).

Lemma on_button_release_registered
    (s : GameComponent.t) (button : Button.t) (timestamp badge : Z)
    (p : PlayerInfo.t) :
  Dict.get badge (GameComponent.players s) = Some p ->
  on_button_release button timestamp badge s =
  after (if Button.eqb button Button.START && PlayerInfo.start_held timestamp p
         then [Publish_kick badge] else [])
        (calculate_buttons (released badge s)).
Proof.
  intros H. unfold on_button_release, modify_player, kick. step. rewrite H.
  destruct (Button.eqb button Button.START); cbn [andb];
    [destruct (PlayerInfo.start_held timestamp p)|]; step;
    rewrite ?after_nil; reflexivity.
Qed.

(** The session object just before the recomputation that ends a press. *)
Definition pressed (button : Button.t) (timestamp badge : Z) (s : GameComponent.t)
  : GameComponent.t :=
  let hold := Dict.update badge (PlayerInfo.with_current_button (Some button))
                          (GameComponent.players s) in
  GameComponent.with_last_button (Some button)
    (GameComponent.with_players
       (if Button.eqb button Button.START
        then Dict.update badge (PlayerInfo.on_start_press timestamp) hold
        else hold) s).

Lemma on_button_press_registered
    (s : GameComponent.t) (button : Button.t) (timestamp badge : Z)
    (p : PlayerInfo.t) :
  Dict.get badge (GameComponent.players s) = Some p ->
  on_button_press button timestamp badge s =
  calculate_buttons (pressed button timestamp badge s).
Proof.
  intros H. unfold on_button_press, modify_player, pressed. step. rewrite H. step.
  destruct (Button.eqb button Button.START); step; reflexivity.
Qed.

Definition is_kick (e : effect) : bool :=
  match e with Publish_kick _ => true | _ => false end.

Lemma hold_only_no_kick (d : option Button.t) :
  Forall (fun e => is_kick e = false) (hold_only d).
Proof.
  unfold hold_only. induction Button.all as [|i l IH]; cbn [map]; constructor; auto.
  destruct (held_eqb (Some i) d); reflexivity.
Qed.

Lemma push_button_no_kick (s : GameComponent.t) :
  Forall (fun e => is_kick e = false) (trace (push_button s)).
Proof.
  rewrite push_button_runs. cbv zeta.
  destruct (_ >? 100); [destruct (_ >? 100)|]; cbn [trace app];
    repeat (constructor; [reflexivity|]);
    apply hold_only_no_kick.
Qed.

Lemma lights_no_kick (l : list PlayerInfo.t) :
  Forall (fun e => is_kick e = false) (map lights_of l).
Proof. induction l; cbn [map]; constructor; auto. Qed.

Lemma calculate_buttons_no_kick (s : GameComponent.t) :
  Forall (fun e => is_kick e = false) (trace (calculate_buttons s)).
Proof.
  rewrite calculate_buttons_runs. cbv zeta.
  destruct (held_eqb _ _); cbn [after trace]; rewrite relight_all_runs;
    cbn [trace].
  - apply lights_no_kick.
  - apply Forall_app. split; [apply push_button_no_kick|apply lights_no_kick].
Qed.

Lemma calculate_buttons_never_kicks (s : GameComponent.t) (badge : Z) :
  ~ In (Publish_kick badge) (trace (calculate_buttons s)).
Proof.
  intros H. pose proof (calculate_buttons_no_kick s) as F.
  rewrite Forall_forall in F. specialize (F _ H). discriminate.
Qed.

Lemma release_kicks_iff
    (s : GameComponent.t) (button : Button.t) (timestamp badge : Z)
    (p : PlayerInfo.t) :
  Dict.get badge (GameComponent.players s) = Some p ->
  In (Publish_kick badge) (trace (on_button_release button timestamp badge s)) <->
  button = Button.START /\ timestamp - PlayerInfo.start_press_at p > PlayerInfo.QUIT_TIME.
Proof.
  intros H. rewrite on_button_release_registered with (p := p) by exact H.
  cbn [after trace]. rewrite in_app_iff. unfold PlayerInfo.start_held.
  destruct (Button.eqb_spec button Button.START) as [->|N]; cbn [andb].
  - destruct (Z.gtb_spec (timestamp - PlayerInfo.start_press_at p) PlayerInfo.QUIT_TIME).
    + split; [intros _; split; [reflexivity|lia]|intros _; left; left; reflexivity].
    + split; [intros [[]|K]|intros [_ K]; lia].
      exfalso. eapply calculate_buttons_never_kicks; eauto.
  - split; [intros [[]|K]|intros [E _]; contradiction].
    exfalso. eapply calculate_buttons_never_kicks; eauto.
Qed.

Lemma calculate_buttons_get (s : GameComponent.t) (badge : Z) :
  Dict.get badge (GameComponent.players (final (calculate_buttons s)))
  = option_map (relight (max_item s)) (Dict.get badge (GameComponent.players s)).
Proof. rewrite calculate_buttons_players. apply get_map_values. Qed.

(** Pressing start records the time of the press on the player. *)
Lemma press_start_records
    (s : GameComponent.t) (timestamp badge : Z) (p : PlayerInfo.t) :
  Dict.get badge (GameComponent.players s) = Some p ->
  exists p',
    Dict.get badge
      (GameComponent.players (final (on_button_press Button.START timestamp badge s)))
    = Some p' /\
    PlayerInfo.start_press_at p' = timestamp.
Proof.
  intros H. rewrite on_button_press_registered with (p := p) by exact H.
  rewrite calculate_buttons_get. unfold pressed.
  cbn [Button.eqb GameComponent.players GameComponent.with_last_button
       GameComponent.with_players].
  erewrite get_update_same by (eapply get_update_same; eauto).
  eexists; split; reflexivity.
Qed.

(** *** C4 *)

(** C4: when a registered player releases start, a kick is published exactly
    when the release comes strictly more than [QUIT_TIME] = 1500 ms after the
    recorded press of start: not at 1500 ms, but at 1501 ms.  The recorded
    press is the time the player last pressed start. *)
Theorem quit_after_more_than_quit_time
    (s : GameComponent.t) (timestamp badge : Z) (p : PlayerInfo.t) :
  Dict.get badge (GameComponent.players s) = Some p ->
  let kicked t :=
    In (Publish_kick badge) (trace (on_button_release Button.START t badge s)) in
  (kicked timestamp <-> timestamp - PlayerInfo.start_press_at p > 1500) /\
  ~ kicked (PlayerInfo.start_press_at p + 1500) /\
  kicked (PlayerInfo.start_press_at p + 1500 + 1) /\
  (exists p',
     Dict.get badge
       (GameComponent.players (final (on_button_press Button.START timestamp badge s)))
     = Some p' /\ PlayerInfo.start_press_at p' = timestamp).
Proof.
  intros H kicked. unfold kicked.
  pose proof (fun t => @release_kicks_iff s Button.START t badge p H) as K.
  unfold PlayerInfo.QUIT_TIME in K.
  repeat split.
  - intros I. apply K in I. apply I.
  - intros I. apply K. split; [reflexivity|exact I].
  - intros I. apply K in I. lia.
  - apply K. split; [reflexivity|lia].
  - apply press_start_records with (p := p). exact H.
Qed.

(** Badge 1 has joined and pressed start at time 100. *)
Definition holding_start : GameComponent.t :=
  final (run [Join 1 10 11; Press Button.START 100 1] GameComponent.initial).

Definition holding_start_player : PlayerInfo.t :=
  {| PlayerInfo.badge_id := 1;
     PlayerInfo.current_button := Some Button.START;
     PlayerInfo.start_press_at := 100;
     PlayerInfo.selected_light := 0;
     PlayerInfo.brightness := (1 # 10)%Q;
     PlayerInfo.light_settings := [Color.GREEN; Color.GREEN; Color.GREEN; Color.GREEN];
     PlayerInfo.subscriptions := [10; 11] |}.

Lemma quit_after_more_than_quit_time_witness :
  let kicked t :=
    In (Publish_kick 1) (trace (on_button_release Button.START t 1 holding_start)) in
  (kicked 1601 <-> 1601 - PlayerInfo.start_press_at holding_start_player > 1500) /\
  ~ kicked (PlayerInfo.start_press_at holding_start_player + 1500) /\
  kicked (PlayerInfo.start_press_at holding_start_player + 1500 + 1) /\
  (exists p',
     Dict.get 1
       (GameComponent.players (final (on_button_press Button.START 1601 1 holding_start)))
     = Some p' /\ PlayerInfo.start_press_at p' = 1601).
Proof.
  apply (@quit_after_more_than_quit_time holding_start 1601 1 holding_start_player).
  vm_compute. reflexivity.
Defined.

(** *** C10 *)

Lemma calculate_buttons_registered (s : GameComponent.t) (badge : Z) :
  registered badge s -> registered badge (final (calculate_buttons s)).
Proof.
  unfold registered. rewrite calculate_buttons_get.
  destruct (Dict.get badge (GameComponent.players s)); cbn; congruence.
Qed.

Lemma released_registered (s : GameComponent.t) (badge : Z) :
  registered badge s -> registered badge (released badge s).
Proof.
  unfold registered, released.
  cbn [GameComponent.players GameComponent.with_last_button
       GameComponent.with_players].
  destruct (Dict.get badge (GameComponent.players s)) as [p|] eqn:G; [|congruence].
  intros _. rewrite get_update_same with (v := p) by exact G. discriminate.
Qed.

(** C10: [kick] only publishes the removal request and leaves the session
    object as it is.  A release of start that kicks ends in exactly the state
    that the same release without the kick (one coming right at the recorded
    press, or one of another button) ends in, the kicked player still in the
    registry with its button cleared; its calls are the kick followed by the
    calls of that plain release. *)
Theorem kick_only_publishes
    (s : GameComponent.t) (timestamp badge : Z) (p : PlayerInfo.t) :
  Dict.get badge (GameComponent.players s) = Some p ->
  PlayerInfo.start_held timestamp p = true ->
  let kicking := on_button_release Button.START timestamp badge s in
  let plain :=
    on_button_release Button.START (PlayerInfo.start_press_at p) badge s in
  kick badge s = {| res := Ok tt; final := s; trace := [Publish_kick badge] |} /\
  res kicking = Ok tt /\
  final kicking = final plain /\
  final kicking = final (on_button_release Button.UP timestamp badge s) /\
  final kicking = final (calculate_buttons (released badge s)) /\
  trace kicking = Publish_kick badge :: trace plain /\
  ~ In (Publish_kick badge) (trace plain) /\
  registered badge (final kicking) /\
  Dict.keys (GameComponent.players (final kicking))
    = Dict.keys (GameComponent.players s) /\
  (exists p',
     Dict.get badge (GameComponent.players (final kicking)) = Some p' /\
     PlayerInfo.current_button p' = None /\
     PlayerInfo.start_press_at p' = PlayerInfo.start_press_at p /\
     PlayerInfo.subscriptions p' = PlayerInfo.subscriptions p).
Proof.
  intros G Held kicking plain.
  assert (NotHeld : PlayerInfo.start_held (PlayerInfo.start_press_at p) p = false).
  { unfold PlayerInfo.start_held, PlayerInfo.QUIT_TIME.
    rewrite Z.sub_diag. reflexivity. }
  unfold kicking, plain.
  rewrite !on_button_release_registered with (p := p) by exact G.
  rewrite Held, NotHeld. cbn [Button.eqb andb after res final trace app].
  split; [reflexivity|].
  split; [apply calculate_buttons_ok|].
  do 4 (split; [reflexivity|]).
  split; [apply calculate_buttons_never_kicks|].
  split.
  { apply calculate_buttons_registered, released_registered.
    unfold registered. congruence. }
  split.
  { rewrite calculate_buttons_players, keys_map_values. unfold released.
    cbn [GameComponent.players GameComponent.with_last_button
         GameComponent.with_players].
    apply keys_update. }
  rewrite calculate_buttons_get. unfold released at 2.
  cbn [GameComponent.players GameComponent.with_last_button
       GameComponent.with_players].
  rewrite get_update_same with (v := p) by exact G. cbn [option_map].
  eexists; repeat split.
Qed.

Lemma kick_only_publishes_witness :
  let s := holding_start in
  let p := holding_start_player in
  let kicking := on_button_release Button.START 1601 1 s in
  let plain := on_button_release Button.START (PlayerInfo.start_press_at p) 1 s in
  kick 1 s = {| res := Ok tt; final := s; trace := [Publish_kick 1] |} /\
  res kicking = Ok tt /\
  final kicking = final plain /\
  final kicking = final (on_button_release Button.UP 1601 1 s) /\
  final kicking = final (calculate_buttons (released 1 s)) /\
  trace kicking = Publish_kick 1 :: trace plain /\
  ~ In (Publish_kick 1) (trace plain) /\
  registered 1 (final kicking) /\
  Dict.keys (GameComponent.players (final kicking))
    = Dict.keys (GameComponent.players s) /\
  (exists p',
     Dict.get 1 (GameComponent.players (final kicking)) = Some p' /\
     PlayerInfo.current_button p' = None /\
     PlayerInfo.start_press_at p' = PlayerInfo.start_press_at p /\
     PlayerInfo.subscriptions p' = PlayerInfo.subscriptions p).
Proof.
  apply (@kick_only_publishes holding_start 1601 1 holding_start_player).
  - vm_compute. reflexivity.
  - vm_compute. reflexivity.
Defined.

(** ** Events for badges that are not registered *)

Lemma on_button_press_unknown
    (s : GameComponent.t) (button : Button.t) (timestamp badge : Z) :
  Dict.get badge (GameComponent.players s) = None ->
  on_button_press button timestamp badge s =
  {| res := Ok tt; final := s; trace := [Print (Unknown_player badge)] |}.
Proof.
  intros H. unfold on_button_press, print. step. rewrite H. reflexivity.
Qed.

Lemma on_button_release_unknown
    (s : GameComponent.t) (button : Button.t) (timestamp badge : Z) :
  Dict.get badge (GameComponent.players s) = None ->
  on_button_release button timestamp badge s =
  {| res := Ok tt; final := s; trace := [Print (Unknown_player badge)] |}.
Proof.
  intros H. unfold on_button_release, print. step. rewrite H. reflexivity.
Qed.

Lemma on_player_leave_unknown (s : GameComponent.t) (badge : Z) :
  Dict.get badge (GameComponent.players s) = None ->
  on_player_leave badge s =
  {| res := Raise (KeyError badge); final := s; trace := [Print (Badge_left badge)] |}.
Proof.
  intros H. unfold on_player_leave, player_at, print. step. rewrite H. step.
  reflexivity.
Qed.

(** *** C5 *)

(** C5 at a leave for badge 7, which never joined: a press or a release for
    that badge is logged and dropped, the session object untouched, but the
    leave stops with [KeyError] at [self.players[badge_id].subscriptions]
    (nothing is changed before that, and the only line printed is the one
    saying the badge left). *)
Theorem leave_of_unknown_badge_raises :
  on_button_press Button.A 0 7 GameComponent.initial =
    {| res := Ok tt; final := GameComponent.initial;
       trace := [Print (Unknown_player 7)] |} /\
  on_button_release Button.A 0 7 GameComponent.initial =
    {| res := Ok tt; final := GameComponent.initial;
       trace := [Print (Unknown_player 7)] |} /\
  on_player_leave 7 GameComponent.initial =
    {| res := Raise (KeyError 7); final := GameComponent.initial;
       trace := [Print (Badge_left 7)] |}.
Proof.
  split; [apply on_button_press_unknown; reflexivity|].
  split; [apply on_button_release_unknown; reflexivity|].
  apply on_player_leave_unknown. reflexivity.
Qed.

(** ** Joining and leaving *)

Definition is_subscribe (e : effect) : bool :=
  match e with Subscribe _ => true | _ => false end.

Lemma on_player_join_runs
    (s : GameComponent.t) (badge : Z) (press_sub release_sub : Subscription) :
  on_player_join badge press_sub release_sub s =
  {| res := Ok tt;
     final :=
       GameComponent.with_players
         (Dict.set badge (PlayerInfo.init badge [press_sub; release_sub])
                   (GameComponent.players s)) s;
     trace :=
       [Print (Badge_joined badge);
        Subscribe (Button_press badge);
        Subscribe (Button_release badge);
        Publish_lights badge [Color.WHITE; Color.WHITE; Color.WHITE; Color.WHITE]] |}.
Proof.
  unfold on_player_join, player_at, set_lights, print. step.
  cbn [GameComponent.players GameComponent.with_players].
  rewrite get_set_same. step. reflexivity.
Qed.

(** *** C6 *)

(** C6 as the specification words it: a join for a registered badge is
    refused, subscribes to nothing and leaves the registry as it was. *)
Definition join_rejected
    (s : GameComponent.t) (badge : Z) (press_sub release_sub : Subscription)
  : Prop :=
  let r := on_player_join badge press_sub release_sub s in
  (exists e, res r = Raise e) /\
  filter is_subscribe (trace r) = [] /\
  GameComponent.players (final r) = GameComponent.players s.

(** Badge 1 has joined, with handles 10 and 11, and holds a. *)
Definition holding_a : GameComponent.t :=
  final (run [Join 1 10 11; Press Button.A 0 1] GameComponent.initial).

(** C6, counterexample: badge 1 joins again while registered and holding a.
    The join goes through, subscribes to both topics a second time, and the
    player's entry is a fresh one: no button held, and the handles 10 and 11 of
    the first two subscriptions are gone. *)
Lemma second_join_goes_through :
  registered 1 holding_a /\
  res (on_player_join 1 12 13 holding_a) = Ok tt /\
  filter is_subscribe (trace (on_player_join 1 12 13 holding_a))
    = [Subscribe (Button_press 1); Subscribe (Button_release 1)] /\
  option_map PlayerInfo.current_button
    (Dict.get 1 (GameComponent.players holding_a)) = Some (Some Button.A) /\
  Dict.get 1 (GameComponent.players (final (on_player_join 1 12 13 holding_a)))
    = Some (PlayerInfo.init 1 [12; 13]) /\
  ~ join_rejected holding_a 1 12 13.
Proof.
  split; [vm_compute; discriminate|].
  do 4 (split; [vm_compute; reflexivity|]).
  intros [[e E] _]. vm_compute in E. discriminate.
Qed.

(** C6, as the code has it: a join for a badge that is already registered is
    not refused.  It subscribes to the badge's press and release topics once
    more and puts a fresh player, holding only the two new handles, in the
    place of the old one, whose held button, start time and handles are lost;
    the registry keeps its keys, so there is still one entry for the badge,
    and the decided button, the last button and the counters stay. *)
Theorem join_of_registered_badge_overwrites
    (s : GameComponent.t) (badge : Z) (press_sub release_sub : Subscription) :
  registered badge s ->
  let r := on_player_join badge press_sub release_sub s in
  res r = Ok tt /\
  trace r =
    [Print (Badge_joined badge);
     Subscribe (Button_press badge);
     Subscribe (Button_release badge);
     Publish_lights badge [Color.WHITE; Color.WHITE; Color.WHITE; Color.WHITE]] /\
  Dict.get badge (GameComponent.players (final r))
    = Some (PlayerInfo.init badge [press_sub; release_sub]) /\
  Dict.keys (GameComponent.players (final r)) = Dict.keys (GameComponent.players s) /\
  decided (final r) = decided s /\
  GameComponent.last_button (final r) = GameComponent.last_button s /\
  GameComponent.press_counter (final r) = GameComponent.press_counter s /\
  GameComponent.save_counter (final r) = GameComponent.save_counter s.
Proof.
  intros R r. unfold r. rewrite on_player_join_runs. cbn [res final trace].
  split; [reflexivity|]. split; [reflexivity|].
  split; [apply get_set_same|].
  split; [cbn [GameComponent.players GameComponent.with_players];
          apply keys_set_present; exact R|].
  repeat split.
Qed.

Lemma join_of_registered_badge_overwrites_witness :
  let r := on_player_join 1 12 13 holding_a in
  res r = Ok tt /\
  trace r =
    [Print (Badge_joined 1);
     Subscribe (Button_press 1);
     Subscribe (Button_release 1);
     Publish_lights 1 [Color.WHITE; Color.WHITE; Color.WHITE; Color.WHITE]] /\
  Dict.get 1 (GameComponent.players (final r)) = Some (PlayerInfo.init 1 [12; 13]) /\
  Dict.keys (GameComponent.players (final r))
    = Dict.keys (GameComponent.players holding_a) /\
  decided (final r) = decided holding_a /\
  GameComponent.last_button (final r) = GameComponent.last_button holding_a /\
  GameComponent.press_counter (final r) = GameComponent.press_counter holding_a /\
  GameComponent.save_counter (final r) = GameComponent.save_counter holding_a.
Proof.
  apply (@join_of_registered_badge_overwrites holding_a 1 12 13).
  vm_compute. discriminate.
Defined.

Lemma del_update (V : Type) (d : Dict.t V) (k : Z) (f : V -> V) :
  Dict.del k (Dict.update k f d) = Dict.del k d.
Proof.
  induction d as [|[k' v'] d IH]; cbn [Dict.update Dict.del]; [reflexivity|].
  destruct (k =? k') eqn:E; cbn [Dict.del]; rewrite E; [reflexivity|].
  rewrite IH. reflexivity.
Qed.

Lemma on_player_leave_registered
    (s : GameComponent.t) (badge : Z) (p : PlayerInfo.t) :
  Dict.get badge (GameComponent.players s) = Some p ->
  exists ps,
    Dict.del badge (GameComponent.players s) = Some ps /\
    on_player_leave badge s =
    {| res := Ok tt;
       final := GameComponent.with_players ps s;
       trace :=
         Print (Badge_left badge)
         :: map Unsubscribe (PlayerInfo.subscriptions p)
         ++ [Publish_lights (PlayerInfo.badge_id p)
               [Color.OFF; Color.OFF; Color.OFF; Color.OFF]] |}.
Proof.
  intros G.
  destruct (@del_present _ (GameComponent.players s) badge) as (ps & D & _);
    [congruence|].
  exists ps. split; [exact D|].
  unfold on_player_leave, player_at, modify_player, delete_player, set_lights, print.
  step. rewrite G. step.
  cbn [GameComponent.players GameComponent.with_players].
  rewrite get_update_same with (v := p) by exact G. step.
  cbn [GameComponent.players GameComponent.with_players].
  rewrite del_update, D. unfold modify, after. cbn. rewrite app_nil_r.
  reflexivity.
Qed.

(** *** C7 *)

(** C7 as the specification words it: after the leave of a badge that holds
    [b], the decided button is the one a release of [b] by that badge would
    have led to. *)
Definition leave_decides_like_release
    (s : GameComponent.t) (badge : Z) (b : Button.t) : Prop :=
  decided (final (on_player_leave badge s))
  = decided (final (on_button_release b 0 badge s)).

(** Badge 1 holds a, badge 2 pressed b after that: b is decided. *)
Definition a_then_b : GameComponent.t :=
  final (run [Join 1 10 11; Join 2 20 21; Press Button.A 0 1; Press Button.B 1 2]
             GameComponent.initial).

(** C7, counterexample: badge 2 leaves while holding b.  It is taken out of
    the registry, but b stays decided although only badge 1, holding a, is
    left; a release of b by badge 2, or a recomputation run after the leave,
    would have decided a. *)
Lemma leave_keeps_stale_decision :
  option_map PlayerInfo.current_button
    (Dict.get 2 (GameComponent.players a_then_b)) = Some (Some Button.B) /\
  decided a_then_b = Some Button.B /\
  res (on_player_leave 2 a_then_b) = Ok tt /\
  Dict.keys (GameComponent.players (final (on_player_leave 2 a_then_b))) = [1] /\
  decided (final (on_player_leave 2 a_then_b)) = Some Button.B /\
  decided (final (on_button_release Button.B 0 2 a_then_b)) = Some Button.A /\
  decided (final (calculate_buttons (final (on_player_leave 2 a_then_b))))
    = Some Button.A /\
  ~ leave_decides_like_release a_then_b 2 Button.B.
Proof.
  do 7 (split; [vm_compute; reflexivity|]).
  unfold leave_decides_like_release. vm_compute. discriminate.
Qed.

(** C7, as the code has it: the leave of a registered badge unsubscribes the
    player's handles, publishes all-off lights and deletes the player from the
    registry, and that is all: no recomputation is run and no key is touched,
    so the decided button, the last button and the counters are what they
    were, also when the player was holding a button.  The vote is gone from
    the next recomputation on, which a press or a release of a registered
    badge starts. *)
Theorem leave_removes_without_recomputing
    (s : GameComponent.t) (badge : Z) (p : PlayerInfo.t) :
  NoDup (Dict.keys (GameComponent.players s)) ->
  Dict.get badge (GameComponent.players s) = Some p ->
  let r := on_player_leave badge s in
  res r = Ok tt /\
  Dict.del badge (GameComponent.players s) = Some (GameComponent.players (final r)) /\
  ~ registered badge (final r) /\
  decided (final r) = decided s /\
  GameComponent.last_button (final r) = GameComponent.last_button s /\
  GameComponent.press_counter (final r) = GameComponent.press_counter s /\
  GameComponent.save_counter (final r) = GameComponent.save_counter s /\
  trace r =
    Print (Badge_left badge)
    :: map Unsubscribe (PlayerInfo.subscriptions p)
    ++ [Publish_lights (PlayerInfo.badge_id p)
          [Color.OFF; Color.OFF; Color.OFF; Color.OFF]] /\
  filter is_push (trace r) = [].
Proof.
  intros N G r. unfold r.
  destruct (@on_player_leave_registered s badge p G) as (ps & D & ->).
  cbn [res final trace]. repeat split; auto.
  - unfold registered. cbn. intros H. apply H. eapply get_del; eauto.
  - cbn [filter is_push]. rewrite filter_app. cbn [filter is_push].
    rewrite app_nil_r.
    induction (PlayerInfo.subscriptions p) as [|h l IH]; [reflexivity|exact IH].
Qed.

Lemma leave_removes_without_recomputing_witness :
  let p := PlayerInfo.with_light_settings
             [Color.GREEN; Color.GREEN; Color.GREEN; Color.GREEN]
             (PlayerInfo.with_current_button (Some Button.B)
                (PlayerInfo.init 2 [20; 21])) in
  let s := a_then_b in
  let r := on_player_leave 2 s in
  res r = Ok tt /\
  Dict.del 2 (GameComponent.players s) = Some (GameComponent.players (final r)) /\
  ~ registered 2 (final r) /\
  decided (final r) = decided s /\
  GameComponent.last_button (final r) = GameComponent.last_button s /\
  GameComponent.press_counter (final r) = GameComponent.press_counter s /\
  GameComponent.save_counter (final r) = GameComponent.save_counter s /\
  trace r =
    Print (Badge_left 2)
    :: map Unsubscribe (PlayerInfo.subscriptions p)
    ++ [Publish_lights (PlayerInfo.badge_id p)
          [Color.OFF; Color.OFF; Color.OFF; Color.OFF]] /\
  filter is_push (trace r) = [].
Proof.
  intros p.
  apply (@leave_removes_without_recomputing a_then_b 2 p).
  - vm_compute. repeat constructor; simpl; intuition discriminate.
  - vm_compute. reflexivity.
Defined.

(** ** The save counters *)

(** A change of the decided button, as [calculate_buttons] makes it. *)
Definition change (d : option Button.t) : M unit :=
  modify (GameComponent.with_current_button d);;
  push_button.

(** Consecutive changes, to the buttons of [ds] in turn. *)
Fixpoint changes (ds : list (option Button.t)) : M unit :=
  match ds with
  | [] => ret tt
  | d :: ds => change d;; changes ds
  end.

(** Shift+F1 saves the emulator state, Shift+F2 is the second save. *)
Definition is_save (e : effect) : bool :=
  match e with Keysequence k => String.eqb k "Shift+F1" | _ => false end.

Definition is_second_save (e : effect) : bool :=
  match e with Keysequence k => String.eqb k "Shift+F2" | _ => false end.

Definition count (f : effect -> bool) (l : list effect) : Z :=
  Z.of_nat (length (filter f l)).

Lemma count_app (f : effect -> bool) (l l' : list effect) :
  count f (l ++ l') = count f l + count f l'.
Proof. unfold count. rewrite filter_app, length_app. lia. Qed.

Lemma count_cons (f : effect -> bool) (e : effect) (l : list effect) :
  count f (e :: l) = (if f e then 1 else 0) + count f l.
Proof. unfold count. cbn [filter]. destruct (f e); cbn [length]; lia. Qed.

Lemma hold_only_count (f : effect -> bool) (d : option Button.t) :
  (forall k, f (Keysequence_down k) = false) ->
  (forall k, f (Keysequence_up k) = false) ->
  count f (hold_only d) = 0.
Proof.
  intros Hd Hu. unfold count, hold_only.
  induction Button.all as [|i l IH]; cbn [map filter]; [reflexivity|].
  destruct (held_eqb (Some i) d); rewrite ?Hd, ?Hu; exact IH.
Qed.

(** One change: the counters after it and the saves it makes. *)
Lemma change_counters (d : option Button.t) (s : GameComponent.t) :
  let r := change d s in
  res r = Ok tt /\
  (GameComponent.press_counter s + 1 <= 100 ->
   GameComponent.press_counter (final r) = GameComponent.press_counter s + 1 /\
   GameComponent.save_counter (final r) = GameComponent.save_counter s /\
   count is_save (trace r) = 0 /\
   count is_second_save (trace r) = 0) /\
  (GameComponent.press_counter s + 1 > 100 ->
   GameComponent.press_counter (final r) = 0 /\
   count is_save (trace r) = 1 /\
   (GameComponent.save_counter s + 1 <= 100 ->
    GameComponent.save_counter (final r) = GameComponent.save_counter s + 1 /\
    count is_second_save (trace r) = 0) /\
   (GameComponent.save_counter s + 1 > 100 ->
    GameComponent.save_counter (final r) = 0 /\
    count is_second_save (trace r) = 1)).
Proof.
  cbv zeta. unfold change. step. rewrite push_button_runs. cbv zeta.
  cbn [GameComponent.press_counter GameComponent.save_counter
       GameComponent.current_button GameComponent.with_current_button].
  destruct (Z.gtb_spec (GameComponent.press_counter s + 1) 100) as [P|P];
    [destruct (Z.gtb_spec (GameComponent.save_counter s + 1) 100) as [Q|Q]|];
    cbn [res final trace GameComponent.press_counter GameComponent.save_counter
         GameComponent.with_press_counter GameComponent.with_save_counter];
    (split; [reflexivity|]);
    rewrite ?count_app, ?count_cons, !hold_only_count by reflexivity;
    cbn [count filter is_save is_second_save String.eqb Ascii.eqb Bool.eqb
         length Z.of_nat];
    repeat split; intros; try lia; reflexivity.
Qed.

(** The counters after any number of changes: the change counter runs through
    0..100 and the save counter moves on each time it wraps. *)
Lemma changes_counters (ds : list (option Button.t)) (s : GameComponent.t) :
  0 <= GameComponent.press_counter s <= 100 ->
  0 <= GameComponent.save_counter s <= 100 ->
  let r := changes ds s in
  let n := GameComponent.press_counter s + Z.of_nat (length ds) in
  let k := GameComponent.save_counter s + n / 101 in
  res r = Ok tt /\
  GameComponent.press_counter (final r) = n mod 101 /\
  count is_save (trace r) = n / 101 /\
  GameComponent.save_counter (final r) = k mod 101 /\
  count is_second_save (trace r) = k / 101.
Proof.
  revert s. induction ds as [|d ds IH]; intros s P Q; cbv zeta.
  - cbn [changes length Z.of_nat ret res final trace]. rewrite Z.add_0_r.
    unfold count. cbn [filter length Z.of_nat].
    rewrite (Z.mod_small _ 101), (Z.div_small _ 101) by lia.
    rewrite Z.add_0_r, (Z.mod_small _ 101), (Z.div_small _ 101) by lia.
    auto.
  - cbn [changes]. unfold bind. 
    destruct (change_counters d s) as (Ok1 & Lo & Hi). cbv zeta in *.
    rewrite Ok1. cbn [res final trace].
    set (s1 := final (change d s)) in *.
    assert (B : (0 <= GameComponent.press_counter s1 <= 100) /\
                (0 <= GameComponent.save_counter s1 <= 100)).
    { destruct (Z_le_gt_dec (GameComponent.press_counter s + 1) 100) as [L|G].
      - destruct (Lo L) as (-> & -> & _). lia.
      - destruct (Hi G) as (-> & _ & Lo2 & Hi2).
        destruct (Z_le_gt_dec (GameComponent.save_counter s + 1) 100) as [L2|G2].
        + destruct (Lo2 L2) as (-> & _). lia.
        + destruct (Hi2 G2) as (-> & _). lia. }
    destruct B as [P1 Q1].
    destruct (IH s1 P1 Q1) as (Ok2 & Pc & Sv & Sc & Bk). cbv zeta in *.
    rewrite !count_app, Ok2, Pc, Sv, Sc, Bk.
    replace (Z.of_nat (length (d :: ds))) with (Z.of_nat (length ds) + 1)
      by (cbn [length]; lia).
    split; [reflexivity|].
    destruct (Z_le_gt_dec (GameComponent.press_counter s + 1) 100) as [L|G].
    + destruct (Lo L) as (E1 & E2 & E3 & E4). rewrite E1, E2, E3, E4.
      replace (GameComponent.press_counter s + 1 + Z.of_nat (length ds))
        with (GameComponent.press_counter s + (Z.of_nat (length ds) + 1)) by lia.
      repeat split; lia.
    + destruct (Hi G) as (E1 & E3 & Lo2 & Hi2). rewrite E1, E3.
      assert (E : GameComponent.press_counter s = 100) by lia.
      rewrite E.
      replace (100 + (Z.of_nat (length ds) + 1))
        with ((0 + Z.of_nat (length ds)) + 1 * 101) by lia.
      rewrite Z.div_add, Z.mod_add by lia.
      destruct (Z_le_gt_dec (GameComponent.save_counter s + 1) 100) as [L2|G2].
      * destruct (Lo2 L2) as (E2 & E4). rewrite E2, E4.
        replace (GameComponent.save_counter s + 1 + (0 + Z.of_nat (length ds)) / 101)
          with (GameComponent.save_counter s + ((0 + Z.of_nat (length ds)) / 101 + 1))
          by lia.
        repeat split; lia.
      * destruct (Hi2 G2) as (E2 & E4). rewrite E2, E4.
        assert (E' : GameComponent.save_counter s = 100) by lia.
        rewrite E'.
        replace (100 + ((0 + Z.of_nat (length ds)) / 101 + 1))
          with ((0 + (0 + Z.of_nat (length ds)) / 101) + 1 * 101) by lia.
        rewrite Z.div_add, Z.mod_add by lia.
        repeat split; lia.
Qed.

(** A recomputation that changes the decision makes exactly such a change. *)
Lemma calculate_buttons_changes (s : GameComponent.t) :
  max_item s <> GameComponent.current_button s ->
  calculate_buttons s =
  let changed := change (max_item s) s in
  after (trace changed) (relight_all (final changed)).
Proof.
  intros N. rewrite calculate_buttons_runs.
  destruct (held_eqb_spec (max_item s) (GameComponent.current_button s));
    [contradiction|].
  unfold change. step. reflexivity.
Qed.

(** *** C8 *)

(** Badge 1 taps a button [n] times: each press and each release changes the
    decided button. *)
Definition taps (n : nat) : list event :=
  concat (repeat [Press Button.A 0 1; Release Button.A 0 1] n).

Definition flapping (n : nat) : list (option Button.t) :=
  concat (repeat [Some Button.A; None] n).

Definition is_pushing (e : effect) : bool :=
  match e with Print (Pushing _) => true | _ => false end.

(** C8, counterexample: badge 1 joins and taps a fifty times.  That is a
    hundred changes of the decided button, after which the change counter is at
    100, not back at zero, and no state has been saved; the same holds for a
    hundred changes made directly. *)
Lemma hundred_changes_save_nothing :
  let r := run (Join 1 10 11 :: taps 50) GameComponent.initial in
  let r' := changes (flapping 50) GameComponent.initial in
  count is_pushing (trace r) = 100 /\
  count is_save (trace r) = 0 /\
  GameComponent.press_counter (final r) = 100 /\
  length (flapping 50) = 100%nat /\
  count is_save (trace r') = 0 /\
  GameComponent.press_counter (final r') = 100 /\
  ~ (count is_save (trace r') = 1 /\ GameComponent.press_counter (final r') = 0).
Proof.
  do 6 (split; [vm_compute; reflexivity|]).
  intros [E _]. vm_compute in E. discriminate.
Qed.

(** C8, as the code has it: the test is [press_counter > 100], made after the
    increment, so starting from a change counter of zero the first hundred
    changes only count, and it is the 101st change that saves the state
    (Shift+F1) once and puts the counter back to zero.  The save counter
    likewise counts saves up to 100, and the 101st save triggers the second
    save (Shift+F2) and puts it back to zero: from both counters at zero, 10100
    changes make a hundred saves and no second save, 10201 changes make 101
    saves and one second save. *)
Theorem save_on_the_101st_change (ds : list (option Button.t)) (s : GameComponent.t) :
  GameComponent.press_counter s = 0 ->
  0 <= GameComponent.save_counter s <= 100 ->
  let r := changes ds s in
  let n := Z.of_nat (length ds) in
  res r = Ok tt /\
  (n <= 100 ->
   count is_save (trace r) = 0 /\
   GameComponent.press_counter (final r) = n /\
   GameComponent.save_counter (final r) = GameComponent.save_counter s /\
   count is_second_save (trace r) = 0) /\
  (n = 101 ->
   count is_save (trace r) = 1 /\
   GameComponent.press_counter (final r) = 0 /\
   (GameComponent.save_counter s < 100 ->
    GameComponent.save_counter (final r) = GameComponent.save_counter s + 1 /\
    count is_second_save (trace r) = 0) /\
   (GameComponent.save_counter s = 100 ->
    GameComponent.save_counter (final r) = 0 /\
    count is_second_save (trace r) = 1)) /\
  (GameComponent.save_counter s = 0 -> n = 10100 ->
   count is_save (trace r) = 100 /\
   count is_second_save (trace r) = 0 /\
   GameComponent.save_counter (final r) = 100 /\
   GameComponent.press_counter (final r) = 0) /\
  (GameComponent.save_counter s = 0 -> n = 10201 ->
   count is_save (trace r) = 101 /\
   count is_second_save (trace r) = 1 /\
   GameComponent.save_counter (final r) = 0 /\
   GameComponent.press_counter (final r) = 0).
Proof.
  intros P Q r n.
  destruct (@changes_counters ds s ltac:(lia) Q) as (R & Pc & Sv & Sc & Bk).
  cbv zeta in *. fold r in R, Pc, Sv, Sc, Bk. fold n in Pc, Sv, Sc, Bk.
  rewrite P in *. rewrite Z.add_0_l in *.
  split; [exact R|].
  rewrite Pc, Sv, Sc, Bk. clear R Pc Sv Sc Bk.
  split; [|split; [|split]].
  - intros L. assert (0 <= n) by (unfold n; lia).
    rewrite (Z.div_small n 101), (Z.mod_small n 101) by lia.
    rewrite Z.add_0_r, Z.mod_small, Z.div_small by lia. auto.
  - intros ->. change (101 / 101) with 1. change (101 mod 101) with 0.
    split; [reflexivity|]. split; [reflexivity|]. split.
    + intros L. rewrite Z.mod_small, Z.div_small by lia. auto.
    + intros E. rewrite E. split; reflexivity.
  - intros -> ->. repeat split.
  - intros -> ->. repeat split.
Qed.

Lemma save_on_the_101st_change_witness :
  let ds := flapping 50 ++ [Some Button.A] in
  let s := GameComponent.initial in
  let r := changes ds s in
  let n := Z.of_nat (length ds) in
  res r = Ok tt /\
  (n <= 100 ->
   count is_save (trace r) = 0 /\
   GameComponent.press_counter (final r) = n /\
   GameComponent.save_counter (final r) = GameComponent.save_counter s /\
   count is_second_save (trace r) = 0) /\
  (n = 101 ->
   count is_save (trace r) = 1 /\
   GameComponent.press_counter (final r) = 0 /\
   (GameComponent.save_counter s < 100 ->
    GameComponent.save_counter (final r) = GameComponent.save_counter s + 1 /\
    count is_second_save (trace r) = 0) /\
   (GameComponent.save_counter s = 100 ->
    GameComponent.save_counter (final r) = 0 /\
    count is_second_save (trace r) = 1)) /\
  (GameComponent.save_counter s = 0 -> n = 10100 ->
   count is_save (trace r) = 100 /\
   count is_second_save (trace r) = 0 /\
   GameComponent.save_counter (final r) = 100 /\
   GameComponent.press_counter (final r) = 0) /\
  (GameComponent.save_counter s = 0 -> n = 10201 ->
   count is_save (trace r) = 101 /\
   count is_second_save (trace r) = 1 /\
   GameComponent.save_counter (final r) = 0 /\
   GameComponent.press_counter (final r) = 0).
Proof.
  apply (@save_on_the_101st_change (flapping 50 ++ [Some Button.A])
           GameComponent.initial).
  - reflexivity.
  - cbn. lia.
Defined.

(** ** The last button *)

Definition is_registered (s : GameComponent.t) (badge : Z) : bool :=
  match Dict.get badge (GameComponent.players s) with
  | Some _ => true
  | None => false
  end.

(** The button of the most recent press by a registered badge; [start] when
    there is no such press. *)
Definition most_recent_press (reg : Z -> bool) (es : list event)
    (start : option Button.t) : option Button.t :=
  fold_left
    (fun acc e =>
       match e with
       | Press button _ badge => if reg badge then Some button else acc
       | _ => acc
       end)
    es start.

(** The same, except that a release by a registered badge forgets it. *)
Definition last_input (reg : Z -> bool) (es : list event)
    (start : option Button.t) : option Button.t :=
  fold_left
    (fun acc e =>
       match e with
       | Press button _ badge => if reg badge then Some button else acc
       | Release _ _ badge => if reg badge then None else acc
       | _ => acc
       end)
    es start.

Lemma last_input_ext (reg reg' : Z -> bool) (es : list event)
    (start : option Button.t) :
  (forall b, reg b = reg' b) -> last_input reg es start = last_input reg' es start.
Proof.
  intros E. unfold last_input. revert start.
  induction es as [|e es IH]; intros start; cbn [fold_left]; [reflexivity|].
  destruct e; rewrite ?E; apply IH.
Qed.

Lemma get_update (V : Type) (d : Dict.t V) (k k' : Z) (f : V -> V) :
  Dict.get k (Dict.update k' f d)
  = if k =? k' then option_map f (Dict.get k d) else Dict.get k d.
Proof.
  induction d as [|[k0 v0] d IH]; cbn [Dict.get Dict.update].
  - destruct (k =? k'); reflexivity.
  - destruct (Z.eqb_spec k' k0) as [->|N]; cbn [Dict.get].
    + destruct (Z.eqb_spec k k0); reflexivity.
    + destruct (Z.eqb_spec k k0) as [->|N'].
      * destruct (Z.eqb_spec k0 k'); [congruence|reflexivity].
      * exact IH.
Qed.

Lemma is_registered_calculate (s : GameComponent.t) (badge : Z) :
  is_registered (final (calculate_buttons s)) badge = is_registered s badge.
Proof.
  unfold is_registered. rewrite calculate_buttons_get.
  destruct (Dict.get badge (GameComponent.players s)); reflexivity.
Qed.

Lemma is_registered_update (ps : Dict.t PlayerInfo.t)
    (badge k : Z) (f : PlayerInfo.t -> PlayerInfo.t) :
  (match Dict.get badge (Dict.update k f ps) with Some _ => true | None => false end)
  = (match Dict.get badge ps with Some _ => true | None => false end).
Proof.
  rewrite get_update. destruct (badge =? k), (Dict.get badge ps); reflexivity.
Qed.

(** What a press or a release does to the last button and to the registry. *)
Lemma handle_button_event (e : event) (s : GameComponent.t) :
  is_button_event e = true ->
  res (handle e s) = Ok tt /\
  (forall b, is_registered (final (handle e s)) b = is_registered s b) /\
  Dict.keys (GameComponent.players (final (handle e s)))
    = Dict.keys (GameComponent.players s) /\
  GameComponent.last_button (final (handle e s))
    = last_input (is_registered s) [e] (GameComponent.last_button s).
Proof.
  destruct e as [| |button timestamp badge|button timestamp badge];
    try discriminate; intros _; cbn [handle last_input fold_left];
    unfold is_registered at 3;
    destruct (Dict.get badge (GameComponent.players s)) as [p|] eqn:G.
  - rewrite on_button_press_registered with (p := p) by exact G.
    split; [apply calculate_buttons_ok|].
    split; [|split].
    + intros b. rewrite is_registered_calculate. unfold is_registered, pressed.
      cbn [GameComponent.players GameComponent.with_last_button
           GameComponent.with_players].
      destruct (Button.eqb button Button.START);
        rewrite ?is_registered_update; reflexivity.
    + rewrite calculate_buttons_players, keys_map_values. unfold pressed.
      cbn [GameComponent.players GameComponent.with_last_button
           GameComponent.with_players].
      destruct (Button.eqb button Button.START); rewrite ?keys_update; reflexivity.
    + rewrite calculate_buttons_last_button. reflexivity.
  - rewrite on_button_press_unknown by exact G. cbn [res final]. auto.
  - rewrite on_button_release_registered with (p := p) by exact G.
    cbn [after res final].
    split; [apply calculate_buttons_ok|].
    split; [|split].
    + intros b. rewrite is_registered_calculate. unfold is_registered, released.
      cbn [GameComponent.players GameComponent.with_last_button
           GameComponent.with_players].
      apply is_registered_update.
    + rewrite calculate_buttons_players, keys_map_values. unfold released.
      cbn [GameComponent.players GameComponent.with_last_button
           GameComponent.with_players].
      apply keys_update.
    + rewrite calculate_buttons_last_button. reflexivity.
  - rewrite on_button_release_unknown by exact G. cbn [res final]. auto.
Qed.

Lemma run_cons (e : event) (es : list event) (s : GameComponent.t) :
  res (handle e s) = Ok tt ->
  run (e :: es) s = after (trace (handle e s)) (run es (final (handle e s))).
Proof.
  intros H. cbn [run].
  exact (@bind_ok unit unit (handle e) (fun _ => run es) s tt H).
Qed.

Lemma run_button_events (es : list event) (s : GameComponent.t) :
  forallb is_button_event es = true ->
  res (run es s) = Ok tt /\
  Dict.keys (GameComponent.players (final (run es s)))
    = Dict.keys (GameComponent.players s) /\
  GameComponent.last_button (final (run es s))
    = last_input (is_registered s) es (GameComponent.last_button s).
Proof.
  revert s. induction es as [|e es IH]; intros s B.
  - cbn. auto.
  - cbn [forallb] in B. apply andb_prop in B. destruct B as [Be Bes].
    destruct (handle_button_event e s Be) as (R & Reg & K & L).
    rewrite run_cons by exact R. cbn [after res final].
    destruct (IH (final (handle e s)) Bes) as (R' & K' & L').
    split; [exact R'|]. split; [congruence|].
    rewrite L', L. rewrite (last_input_ext _ (is_registered s)) by exact Reg.
    reflexivity.
Qed.

Lemma last_input_app (reg : Z -> bool) (es es' : list event)
    (start : option Button.t) :
  last_input reg (es ++ es') start = last_input reg es' (last_input reg es start).
Proof. unfold last_input. apply fold_left_app. Qed.

(** *** C9 *)

(** C9 as the specification words it: the last button is the button of the
    most recent press by a registered badge. *)
Definition remembers_most_recent_press (s : GameComponent.t) (es : list event)
  : Prop :=
  GameComponent.last_button (final (run es s))
  = most_recent_press (is_registered s) es (GameComponent.last_button s).

Definition two_joined : GameComponent.t :=
  final (run [Join 1 10 11; Join 2 20 21] GameComponent.initial).

(** C9, counterexample: badge 1 presses a, badge 2 presses b, badge 1 lets a
    go.  The most recent press is the one of b, which badge 2 still holds, but
    the release by badge 1 has cleared the last button. *)
Lemma release_forgets_the_press_of_another :
  let es := [Press Button.A 0 1; Press Button.B 1 2; Release Button.A 2 1] in
  forallb is_button_event es = true /\
  most_recent_press (is_registered two_joined) es
    (GameComponent.last_button two_joined) = Some Button.B /\
  GameComponent.last_button (final (run es two_joined)) = None /\
  ~ remembers_most_recent_press two_joined es.
Proof.
  do 3 (split; [vm_compute; reflexivity|]).
  unfold remembers_most_recent_press. vm_compute. discriminate.
Qed.

(** C9, as the code has it: presses and releases never fail and leave the
    registry's keys alone, and after any sequence of them the last button is
    the button of the most recent press by a registered badge unless a
    registered badge (the same or another one) released a button since then,
    in which case there is no last button.  So a press by a registered badge
    sets it, a release by a registered badge clears it, and an event of an
    unknown badge leaves it as it was. *)
Theorem last_button_is_cleared_by_any_release
    (es : list event) (s : GameComponent.t) :
  forallb is_button_event es = true ->
  let last es := GameComponent.last_button (final (run es s)) in
  res (run es s) = Ok tt /\
  last es = last_input (is_registered s) es (GameComponent.last_button s) /\
  (forall es' button timestamp badge,
      es = es' ++ [Press button timestamp badge] ->
      is_registered s badge = true -> last es = Some button) /\
  (forall es' button timestamp badge,
      es = es' ++ [Release button timestamp badge] ->
      is_registered s badge = true -> last es = None) /\
  (forall es' e,
      es = es' ++ [e] ->
      is_registered s (badge_of e) = false -> last es = last es').
Proof.
  intros B last.
  destruct (run_button_events es s B) as (R & _ & L).
  split; [exact R|]. split; [exact L|].
  unfold last. rewrite L. clear R L.
  split; [|split].
  - intros es' button timestamp badge -> Reg.
    rewrite last_input_app. cbn [last_input fold_left]. rewrite Reg. reflexivity.
  - intros es' button timestamp badge -> Reg.
    rewrite last_input_app. cbn [last_input fold_left]. rewrite Reg. reflexivity.
  - intros es' e -> Reg.
    rewrite forallb_app in B. apply andb_prop in B. destruct B as [B' Be].
    destruct (run_button_events es' s B') as (_ & _ & ->).
    rewrite last_input_app. cbn [last_input fold_left].
    destruct e; cbn [badge_of] in Reg; try discriminate Be; rewrite Reg; reflexivity.
Qed.

Lemma last_button_is_cleared_by_any_release_witness :
  let es := [Press Button.A 0 1; Press Button.B 1 2; Release Button.A 2 1] in
  let s := two_joined in
  let last es := GameComponent.last_button (final (run es s)) in
  res (run es s) = Ok tt /\
  last es = last_input (is_registered s) es (GameComponent.last_button s) /\
  (forall es' button timestamp badge,
      es = es' ++ [Press button timestamp badge] ->
      is_registered s badge = true -> last es = Some button) /\
  (forall es' button timestamp badge,
      es = es' ++ [Release button timestamp badge] ->
      is_registered s badge = true -> last es = None) /\
  (forall es' e,
      es = es' ++ [e] ->
      is_registered s (badge_of e) = false -> last es = last es').
Proof.
  apply (@last_button_is_cleared_by_any_release
           [Press Button.A 0 1; Press Button.B 1 2; Release Button.A 2 1]
           two_joined).
  reflexivity.
Defined.

(** ** The registry stays a dictionary

    No handler ever leaves two entries under one badge, whether it ends
    normally or with an exception, so the keys of the registry are distinct
    in every state the game gets to. *)

Lemma del_keys_incl (V : Type) (d d' : Dict.t V) (k k0 : Z) :
  Dict.del k d = Some d' -> In k0 (Dict.keys d') -> In k0 (Dict.keys d).
Proof.
  revert d'. induction d as [|[k' v'] d IH]; cbn [Dict.del]; [discriminate|].
  intros d'. unfold Dict.keys in *. destruct (k =? k').
  - intros [= <-]. cbn [map fst In]. auto.
  - destruct (Dict.del k d) as [r|]; [|discriminate].
    intros [= <-]. cbn [map fst In]. intros [E|I]; [auto|]. right. eapply IH; eauto.
Qed.

Lemma del_keys_nodup (V : Type) (d d' : Dict.t V) (k : Z) :
  NoDup (Dict.keys d) -> Dict.del k d = Some d' -> NoDup (Dict.keys d').
Proof.
  revert d'. induction d as [|[k' v'] d IH]; cbn [Dict.del]; [discriminate|].
  intros d' N. unfold Dict.keys in *. cbn [map fst] in N.
  inversion N as [|? ? N1 N2]; subst. destruct (k =? k').
  - intros [= <-]. exact N2.
  - destruct (Dict.del k d) as [r|] eqn:D; [|discriminate].
    intros [= <-]. cbn [map fst]. constructor; [|apply IH; auto].
    intros I. apply N1. eapply del_keys_incl; eauto.
Qed.

Lemma handle_keeps_keys_distinct (e : event) (s : GameComponent.t) :
  NoDup (Dict.keys (GameComponent.players s)) ->
  NoDup (Dict.keys (GameComponent.players (final (handle e s)))).
Proof.
  intros N. destruct e as [badge ps rs|badge|button timestamp badge|button timestamp badge].
  - cbn [handle]. rewrite on_player_join_runs.
    cbn [final GameComponent.players GameComponent.with_players].
    destruct (Dict.get badge (GameComponent.players s)) as [p|] eqn:G.
    + rewrite keys_set_present by congruence. exact N.
    + rewrite keys_set_absent by exact G. apply NoDup_app; repeat split.
      * exact N.
      * constructor; [simpl; tauto|constructor].
      * intros k I [<-|[]]. apply get_in_keys in I. contradiction.
  - cbn [handle].
    destruct (Dict.get badge (GameComponent.players s)) as [p|] eqn:G.
    + destruct (@on_player_leave_registered s badge p G) as (ps & D & ->).
      cbn [final GameComponent.players GameComponent.with_players].
      eapply del_keys_nodup; eauto.
    + rewrite on_player_leave_unknown by exact G. exact N.
  - destruct (@handle_button_event (Press button timestamp badge) s eq_refl)
      as (_ & _ & -> & _). exact N.
  - destruct (@handle_button_event (Release button timestamp badge) s eq_refl)
      as (_ & _ & -> & _). exact N.
Qed.

(** The session object after the events [es], each handled in turn whether
    or not the one before it ended with an exception. *)
Definition drive (es : list event) (s : GameComponent.t) : GameComponent.t :=
  fold_left (fun s e => final (handle e s)) es s.

Lemma drive_keeps_keys_distinct (es : list event) :
  NoDup (Dict.keys (GameComponent.players (drive es GameComponent.initial))).
Proof.
  unfold drive.
  assert (G : forall s, NoDup (Dict.keys (GameComponent.players s)) ->
                        NoDup (Dict.keys (GameComponent.players
                                 (fold_left (fun s e => final (handle e s)) es s)))).
  { induction es as [|e es IH]; intros s N; cbn [fold_left]; [exact N|].
    apply IH, handle_keeps_keys_distinct, N. }
  apply G. constructor.
Qed.

(** ** What a recomputation shows and pushes *)

Definition is_lights (e : effect) : bool :=
  match e with Publish_lights _ _ => true | _ => false end.

Definition is_key_down (e : effect) : bool :=
  match e with Keysequence_down _ => true | _ => false end.

Definition all_green : list Z := [Color.GREEN; Color.GREEN; Color.GREEN; Color.GREEN].
Definition all_red : list Z := [Color.RED; Color.RED; Color.RED; Color.RED].

Lemma hold_only_no_lights (d : option Button.t) :
  filter is_lights (hold_only d) = [].
Proof.
  unfold hold_only. induction Button.all as [|i l IH]; cbn [map filter]; [reflexivity|].
  destruct (held_eqb (Some i) d); exact IH.
Qed.

Lemma push_button_no_lights (s : GameComponent.t) :
  filter is_lights (trace (push_button s)) = [].
Proof.
  rewrite push_button_runs. cbv zeta.
  destruct (_ >? 100); [destruct (_ >? 100)|]; cbn [trace app filter is_lights];
    apply hold_only_no_lights.
Qed.

Lemma in_map_values (f : PlayerInfo.t -> PlayerInfo.t) (ps : Dict.t PlayerInfo.t)
    (k : Z) (p' : PlayerInfo.t) :
  In (k, p') (Dict.map_values f ps) <-> exists p, In (k, p) ps /\ p' = f p.
Proof.
  unfold Dict.map_values. rewrite in_map_iff. split.
  - intros [[k0 p] [E I]]. cbn [fst snd] in E. injection E as <- <-. eauto.
  - intros (p & I & ->). exists (k, p). auto.
Qed.

(** After a recomputation every player's lights are green when the player
    holds the decided button (or holds nothing while nothing is decided) and
    red otherwise; the recomputation ends by publishing the lights of every
    player once, in registry order, and publishes no lights before that. *)
Theorem recomputation_sets_every_light (s : GameComponent.t) :
  let r := calculate_buttons s in
  (forall badge p,
      In (badge, p) (GameComponent.players (final r)) ->
      PlayerInfo.light_settings p =
      if held_eqb (PlayerInfo.current_button p) (decided (final r))
      then all_green else all_red) /\
  Dict.keys (GameComponent.players (final r)) = Dict.keys (GameComponent.players s) /\
  (exists before,
      trace r = before ++ map lights_of (Dict.values (GameComponent.players (final r))) /\
      filter is_lights before = []).
Proof.
  intros r. unfold r, decided.
  rewrite calculate_buttons_decided, calculate_buttons_players.
  split; [|split].
  - intros badge p I. apply in_map_values in I. destruct I as (p0 & _ & ->).
    reflexivity.
  - apply keys_map_values.
  - rewrite calculate_buttons_runs. cbv zeta.
    destruct (held_eqb_spec (max_item s) (GameComponent.current_button s)) as [E|E];
      rewrite relight_all_runs; cbv zeta.
    + exists []. rewrite E. split; reflexivity.
    + exists (trace (push_button (GameComponent.with_current_button (max_item s) s))).
      cbn [after trace].
      destruct (push_button_frame
                  (GameComponent.with_current_button (max_item s) s)) as (-> & -> & _).
      split; [reflexivity|apply push_button_no_lights].
Qed.

Lemma keycodes_injective (a b : Button.t) : keycodes a = keycodes b -> a = b.
Proof. destruct a, b; cbn; intros E; try reflexivity; discriminate E. Qed.

Lemma held_eqb_some (i : Button.t) (d : option Button.t) :
  held_eqb (Some i) d = true <-> d = Some i.
Proof. destruct (held_eqb_spec (Some i) d); split; congruence. Qed.

Lemma hold_only_down (d : option Button.t) (k : string) :
  In (Keysequence_down k) (hold_only d) <->
  exists b, d = Some b /\ k = keycodes b.
Proof.
  unfold hold_only. rewrite in_map_iff. split.
  - intros (i & E & _). destruct (held_eqb (Some i) d) eqn:H; [|discriminate].
    injection E as <-. apply held_eqb_some in H. eauto.
  - intros (b & -> & ->). exists b. cbn [held_eqb].
    rewrite Button.eqb_refl. split; [reflexivity|apply Button.all_complete].
Qed.

Lemma hold_only_up (d : option Button.t) (b : Button.t) :
  In (Keysequence_up (keycodes b)) (hold_only d) <-> d <> Some b.
Proof.
  unfold hold_only. rewrite in_map_iff. split.
  - intros (i & E & _). destruct (held_eqb (Some i) d) eqn:H; [discriminate|].
    injection E as E. apply keycodes_injective in E. subst i.
    intros D. apply held_eqb_some in D. congruence.
  - intros N. exists b. split; [|apply Button.all_complete].
    destruct (held_eqb (Some b) d) eqn:H; [|reflexivity].
    apply held_eqb_some in H. contradiction.
Qed.

Lemma hold_only_down_count (d : option Button.t) :
  count is_key_down (hold_only d) = match d with Some _ => 1 | None => 0 end.
Proof. destruct d as [[]|]; reflexivity. Qed.

Lemma push_button_trace (s : GameComponent.t) :
  exists saving,
    trace (push_button s) =
    saving ++ Print (Pushing (GameComponent.current_button s))
           :: hold_only (GameComponent.current_button s) /\
    Forall (fun e => e = Search_windows \/ e = Print Saved_state \/
                     e = Keysequence "Shift+F1" \/ e = Keysequence "Shift+F2")
           saving.
Proof.
  rewrite push_button_runs. cbv zeta.
  destruct (_ >? 100); [destruct (_ >? 100)|]; cbn [trace].
  - eexists. split; [reflexivity|].
    repeat (apply Forall_cons; [auto 6|]). apply Forall_nil.
  - eexists. split; [reflexivity|].
    repeat (apply Forall_cons; [auto 6|]). apply Forall_nil.
  - exists []. split; [reflexivity|constructor].
Qed.

(** [push_button] leaves exactly one key held in the emulator window, the key
    of the decided button, and lets every other key go; with nothing decided
    all eight keys are let go.  The eight buttons are mapped to eight
    different keys. *)
Theorem push_button_holds_the_decided_key (s : GameComponent.t) :
  let r := push_button s in
  let d := GameComponent.current_button s in
  (forall k, In (Keysequence_down k) (trace r) <->
             exists b, d = Some b /\ k = keycodes b) /\
  (forall b, In (Keysequence_up (keycodes b)) (trace r) <-> d <> Some b) /\
  count is_key_down (trace r) = match d with Some _ => 1 | None => 0 end /\
  (forall a b, keycodes a = keycodes b -> a = b).
Proof.
  intros r d. unfold r, d.
  destruct (push_button_trace s) as (saving & -> & F).
  rewrite Forall_forall in F.
  split; [|split; [|split]].
  - intros k. rewrite in_app_iff. cbn [In]. rewrite hold_only_down. split.
    + intros [I|[E|H]]; [|discriminate E|exact H].
      apply F in I. destruct I as [E|[E|[E|E]]]; discriminate E.
    + auto.
  - intros b. rewrite in_app_iff. cbn [In]. rewrite hold_only_up. split.
    + intros [I|[E|H]]; [|discriminate E|exact H].
      apply F in I. destruct I as [E|[E|[E|E]]]; discriminate E.
    + auto.
  - rewrite count_app, count_cons, hold_only_down_count. cbn [is_key_down].
    assert (Z0 : count is_key_down saving = 0).
    { unfold count. clear -F. induction saving as [|e l IH]; [reflexivity|].
      cbn [filter]. destruct (F e (or_introl eq_refl)) as [-> | [-> | [-> | ->]]];
        cbn [is_key_down]; apply IH; intros x I; apply F; right; exact I. }
    rewrite Z0. reflexivity.
  - apply keycodes_injective.
Qed.

Lemma lights_count (f : effect -> bool) (l : list PlayerInfo.t) :
  (forall b c, f (Publish_lights b c) = false) -> count f (map lights_of l) = 0.
Proof.
  intros H. unfold count. induction l as [|p l IH]; [reflexivity|].
  cbn [map filter]. unfold lights_of at 1. rewrite H. exact IH.
Qed.

Lemma push_button_pushing (s : GameComponent.t) :
  count is_pushing (trace (push_button s)) = 1 /\
  In (Print (Pushing (GameComponent.current_button s))) (trace (push_button s)).
Proof.
  rewrite push_button_runs. cbv zeta.
  destruct (_ >? 100); [destruct (_ >? 100)|]; cbn [trace app];
    rewrite ?count_cons, hold_only_count by reflexivity;
    (split; [reflexivity|cbn [In]; auto 6]).
Qed.

(** A recomputation calls [push_button] exactly when the decided button
    changes: then once, logging the new decision and moving the change counter
    on (to zero after 100); when the decision stands, no key is touched,
    nothing is logged or saved and both counters keep their values. *)
Theorem recomputation_pushes_exactly_on_change (s : GameComponent.t) :
  let r := calculate_buttons s in
  count is_pushing (trace r)
    = (if held_eqb (max_item s) (GameComponent.current_button s) then 0 else 1) /\
  (max_item s = GameComponent.current_button s ->
   filter is_push (trace r) = [] /\
   GameComponent.press_counter (final r) = GameComponent.press_counter s /\
   GameComponent.save_counter (final r) = GameComponent.save_counter s) /\
  (max_item s <> GameComponent.current_button s ->
   In (Print (Pushing (max_item s))) (trace r) /\
   GameComponent.press_counter (final r)
     = (if GameComponent.press_counter s + 1 >? 100 then 0
        else GameComponent.press_counter s + 1)).
Proof.
  intros r. unfold r. split; [|split].
  - rewrite calculate_buttons_runs. cbv zeta.
    destruct (held_eqb _ _); rewrite relight_all_runs; cbv zeta; cbn [after trace].
    + apply lights_count. reflexivity.
    + rewrite count_app, lights_count by reflexivity.
      destruct (push_button_pushing
                  (GameComponent.with_current_button (max_item s) s)) as [-> _].
      reflexivity.
  - intros E. rewrite (calculate_buttons_unchanged _ E). cbv zeta.
    cbn [trace final]. split; [apply lights_not_push|]. split; reflexivity.
  - intros N. rewrite calculate_buttons_runs. cbv zeta.
    destruct (held_eqb_spec (max_item s) (GameComponent.current_button s));
      [contradiction|].
    rewrite relight_all_runs. cbv zeta. cbn [after trace final]. split.
    + apply in_or_app. left.
      apply (push_button_pushing (GameComponent.with_current_button (max_item s) s)).
    + rewrite push_button_runs. cbv zeta.
      cbn [GameComponent.press_counter GameComponent.save_counter
           GameComponent.with_current_button].
      destruct (GameComponent.press_counter s + 1 >? 100);
        [destruct (GameComponent.save_counter s + 1 >? 100)|]; reflexivity.
Qed.

(** ** Which events fail, which are dropped, which kick *)

(** A press or a release for a badge that is not in the registry is logged as
    coming from an unknown player and dropped: the session object is left
    exactly as it was and nothing is published or pushed. *)
Theorem button_events_of_unknown_badges_are_dropped
    (s : GameComponent.t) (button : Button.t) (timestamp badge : Z) :
  Dict.get badge (GameComponent.players s) = None ->
  on_button_press button timestamp badge s =
    {| res := Ok tt; final := s; trace := [Print (Unknown_player badge)] |} /\
  on_button_release button timestamp badge s =
    {| res := Ok tt; final := s; trace := [Print (Unknown_player badge)] |}.
Proof.
  intros H. split.
  - apply on_button_press_unknown. exact H.
  - apply on_button_release_unknown. exact H.
Qed.

Lemma button_events_of_unknown_badges_are_dropped_witness :
  on_button_press Button.START 5 3 holding_a =
    {| res := Ok tt; final := holding_a; trace := [Print (Unknown_player 3)] |} /\
  on_button_release Button.START 5 3 holding_a =
    {| res := Ok tt; final := holding_a; trace := [Print (Unknown_player 3)] |}.
Proof.
  apply (@button_events_of_unknown_badges_are_dropped holding_a Button.START 5 3).
  vm_compute. reflexivity.
Defined.



Lemma leave_never_kicks (s : GameComponent.t) (badge b : Z) :
  ~ In (Publish_kick b) (trace (on_player_leave badge s)).
Proof.
  destruct (Dict.get badge (GameComponent.players s)) as [p|] eqn:G.
  - destruct (@on_player_leave_registered s badge p G) as (ps & _ & ->).
    cbn [trace In]. rewrite in_app_iff, in_map_iff. cbn [In].
    intros [E|[(h & E & _)|[E|[]]]]; discriminate E.
  - rewrite on_player_leave_unknown by exact G. cbn [trace In].
    intros [E|[]]; discriminate E.
Qed.

(** A kick for a badge is published by one event only: a release of start by
    that badge, registered, coming more than 1500 ms after the start press
    recorded for it.  No join, leave or press, and no release of another
    button, ever kicks anybody. *)
Theorem only_a_long_start_release_kicks
    (e : event) (s : GameComponent.t) (b : Z) :
  In (Publish_kick b) (trace (handle e s)) <->
  exists timestamp p,
    e = Release Button.START timestamp b /\
    Dict.get b (GameComponent.players s) = Some p /\
    timestamp - PlayerInfo.start_press_at p > 1500.
Proof.
  destruct e as [badge ps rs|badge|button timestamp badge|button timestamp badge];
    cbn [handle].
  - rewrite on_player_join_runs. cbn [trace In]. split.
    + intros [E|[E|[E|[E|[]]]]]; discriminate E.
    + intros (t & p & E & _). discriminate E.
  - split; [intros K; exfalso; eapply leave_never_kicks; eauto|].
    intros (t & p & E & _). discriminate E.
  - split; [|intros (t & p & E & _); discriminate E].
    destruct (Dict.get badge (GameComponent.players s)) as [p|] eqn:G.
    + rewrite on_button_press_registered with (p := p) by exact G.
      intros K. exfalso. eapply calculate_buttons_never_kicks; eauto.
    + rewrite on_button_press_unknown by exact G. cbn [trace In].
      intros [E|[]]; discriminate E.
  - destruct (Dict.get badge (GameComponent.players s)) as [p|] eqn:G.
    + split.
      * intros K.
        assert (B : b = badge).
        { rewrite on_button_release_registered with (p := p) in K by exact G.
          cbn [after trace] in K. apply in_app_or in K. destruct K as [K|K].
          - destruct (_ && _); cbn [In] in K; [|contradiction].
            destruct K as [[= <-]|[]]. reflexivity.
          - exfalso. eapply calculate_buttons_never_kicks; eauto. }
        subst b. apply (@release_kicks_iff s button timestamp badge p G) in K.
        destruct K as [-> K].
        exists timestamp, p. auto.
      * intros (t & p' & E & G' & K). injection E as E1 E2 E3. subst.
        rewrite G in G'. injection G' as <-.
        eapply release_kicks_iff; [exact G|].
        split; [reflexivity|exact K].
    + rewrite on_button_release_unknown by exact G. cbn [trace In]. split.
      * intros [E|[]]; discriminate E.
      * intros (t & p & E & G' & _). injection E as E1 E2 E3. subst.
        congruence.
Qed.

(** ** Joining and leaving again *)

Lemma del_set_absent (V : Type) (d : Dict.t V) (k : Z) (v : V) :
  Dict.get k d = None -> Dict.del k (Dict.set k v d) = Some d.
Proof.
  induction d as [|[k' v'] d IH]; cbn [Dict.get Dict.set Dict.del].
  - rewrite Z.eqb_refl. reflexivity.
  - destruct (k =? k') eqn:E; [discriminate|]. intros G.
    cbn [Dict.del]. rewrite E, (IH G). reflexivity.
Qed.

(** A badge that is not registered joins and then leaves: the leave runs to
    its end, gives back exactly the two subscriptions made by the join, turns
    the lights off, and the session object is again what it was before the
    join, registry order included. *)
Theorem join_then_leave_restores_the_session
    (s : GameComponent.t) (badge : Z) (press_sub release_sub : Subscription) :
  Dict.get badge (GameComponent.players s) = None ->
  let joined := on_player_join badge press_sub release_sub s in
  let gone := on_player_leave badge (final joined) in
  registered badge (final joined) /\
  res gone = Ok tt /\
  final gone = s /\
  trace gone =
    [Print (Badge_left badge); Unsubscribe press_sub; Unsubscribe release_sub;
     Publish_lights badge [Color.OFF; Color.OFF; Color.OFF; Color.OFF]].
Proof.
  intros G joined gone. unfold gone, joined. rewrite on_player_join_runs.
  cbn [final].
  set (p := PlayerInfo.init badge [press_sub; release_sub]).
  set (s1 := GameComponent.with_players _ s).
  assert (G1 : Dict.get badge (GameComponent.players s1) = Some p)
    by (apply get_set_same).
  split; [unfold registered; congruence|].
  destruct (@on_player_leave_registered s1 badge p G1) as (ps & D & ->).
  cbn [res final trace].
  unfold s1 in D. cbn [GameComponent.players GameComponent.with_players] in D.
  rewrite del_set_absent in D by exact G. injection D as <-.
  split; [reflexivity|]. split; [|reflexivity].
  destruct s; reflexivity.
Qed.

Lemma join_then_leave_restores_the_session_witness :
  let s := holding_a in
  let joined := on_player_join 2 20 21 s in
  let gone := on_player_leave 2 (final joined) in
  registered 2 (final joined) /\
  res gone = Ok tt /\
  final gone = s /\
  trace gone =
    [Print (Badge_left 2); Unsubscribe 20; Unsubscribe 21;
     Publish_lights 2 [Color.OFF; Color.OFF; Color.OFF; Color.OFF]].
Proof.
  apply (@join_then_leave_restores_the_session holding_a 2 20 21).
  vm_compute. reflexivity.
Defined.

(** ** Invariants of the session object *)

(** Every entry of the registry is filed under its own badge id. *)
Definition keyed_by_badge (ps : Dict.t PlayerInfo.t) : Prop :=
  Forall (fun kv => PlayerInfo.badge_id (snd kv) = fst kv) ps.

Lemma keyed_set (ps : Dict.t PlayerInfo.t) (k : Z) (p : PlayerInfo.t) :
  PlayerInfo.badge_id p = k -> keyed_by_badge ps -> keyed_by_badge (Dict.set k p ps).
Proof.
  intros E. unfold keyed_by_badge.
  induction ps as [|[k' p'] ps IH]; cbn [Dict.set]; intros F.
  - constructor; [exact E|constructor].
  - apply Forall_cons_iff in F. destruct F as [F1 F2]. destruct (Z.eqb_spec k k') as [->|N].
    + constructor; [exact E|exact F2].
    + constructor; [exact F1|apply IH; exact F2].
Qed.

Lemma keyed_update (ps : Dict.t PlayerInfo.t) (k : Z)
    (f : PlayerInfo.t -> PlayerInfo.t) :
  (forall p, PlayerInfo.badge_id (f p) = PlayerInfo.badge_id p) ->
  keyed_by_badge ps -> keyed_by_badge (Dict.update k f ps).
Proof.
  intros E. unfold keyed_by_badge.
  induction ps as [|[k' p'] ps IH]; cbn [Dict.update]; intros F; [constructor|].
  apply Forall_cons_iff in F. destruct F as [F1 F2]. destruct (k =? k').
  - constructor; [cbn [fst snd] in *; rewrite E; exact F1|exact F2].
  - constructor; [exact F1|apply IH; exact F2].
Qed.

Lemma keyed_map_values (ps : Dict.t PlayerInfo.t)
    (f : PlayerInfo.t -> PlayerInfo.t) :
  (forall p, PlayerInfo.badge_id (f p) = PlayerInfo.badge_id p) ->
  keyed_by_badge ps -> keyed_by_badge (Dict.map_values f ps).
Proof.
  intros E. unfold keyed_by_badge, Dict.map_values.
  induction ps as [|[k' p'] ps IH]; cbn [map]; intros F; [constructor|].
  apply Forall_cons_iff in F. destruct F as [F1 F2].
  constructor; [cbn [fst snd] in *; rewrite E; exact F1|apply IH; exact F2].
Qed.

Lemma keyed_del (ps ps' : Dict.t PlayerInfo.t) (k : Z) :
  Dict.del k ps = Some ps' -> keyed_by_badge ps -> keyed_by_badge ps'.
Proof.
  unfold keyed_by_badge. revert ps'.
  induction ps as [|[k' p'] ps IH]; cbn [Dict.del]; intros ps' D F; [discriminate|].
  apply Forall_cons_iff in F. destruct F as [F1 F2]. destruct (k =? k').
  - injection D as <-. exact F2.
  - destruct (Dict.del k ps) as [r|]; [|discriminate]. injection D as <-.
    constructor; [exact F1|apply IH; auto].
Qed.

Lemma keyed_get (ps : Dict.t PlayerInfo.t) (k : Z) (p : PlayerInfo.t) :
  keyed_by_badge ps -> Dict.get k ps = Some p -> PlayerInfo.badge_id p = k.
Proof.
  unfold keyed_by_badge.
  induction ps as [|[k' p'] ps IH]; cbn [Dict.get]; intros F; [discriminate|].
  apply Forall_cons_iff in F. destruct F as [F1 F2]. destruct (Z.eqb_spec k k') as [->|N].
  - intros [= <-]. exact F1.
  - apply IH. exact F2.
Qed.

Lemma handle_keeps_keyed (e : event) (s : GameComponent.t) :
  keyed_by_badge (GameComponent.players s) ->
  keyed_by_badge (GameComponent.players (final (handle e s))).
Proof.
  intros F.
  destruct e as [badge ps rs|badge|button timestamp badge|button timestamp badge];
    cbn [handle].
  - rewrite on_player_join_runs.
    cbn [final GameComponent.players GameComponent.with_players].
    apply keyed_set; [reflexivity|exact F].
  - destruct (Dict.get badge (GameComponent.players s)) as [p|] eqn:G.
    + destruct (@on_player_leave_registered s badge p G) as (ps & D & ->).
      cbn [final GameComponent.players GameComponent.with_players].
      eapply keyed_del; eauto.
    + rewrite on_player_leave_unknown by exact G. exact F.
  - destruct (Dict.get badge (GameComponent.players s)) as [p|] eqn:G.
    + rewrite on_button_press_registered with (p := p) by exact G.
      rewrite calculate_buttons_players. apply keyed_map_values; [reflexivity|].
      unfold pressed.
      cbn [GameComponent.players GameComponent.with_last_button
           GameComponent.with_players].
      destruct (Button.eqb button Button.START);
        repeat (apply keyed_update; [reflexivity|]); exact F.
    + rewrite on_button_press_unknown by exact G. exact F.
  - destruct (Dict.get badge (GameComponent.players s)) as [p|] eqn:G.
    + rewrite on_button_release_registered with (p := p) by exact G.
      cbn [after final].
      rewrite calculate_buttons_players. apply keyed_map_values; [reflexivity|].
      unfold released.
      cbn [GameComponent.players GameComponent.with_last_button
           GameComponent.with_players].
      apply keyed_update; [reflexivity|exact F].
    + rewrite on_button_release_unknown by exact G. exact F.
Qed.

(** Whatever events arrive, in whatever order and whether or not some of
    their handlers fail, the registry never holds two entries for one badge,
    and the player found under a badge carries that badge's id, so its lights
    are always published to its own badge. *)
Theorem registry_stays_well_formed (es : list event) :
  let s := drive es GameComponent.initial in
  NoDup (Dict.keys (GameComponent.players s)) /\
  (forall badge p,
      Dict.get badge (GameComponent.players s) = Some p ->
      PlayerInfo.badge_id p = badge /\
      lights_of p = Publish_lights badge (PlayerInfo.light_settings p)).
Proof.
  cbv zeta. split; [apply drive_keeps_keys_distinct|].
  assert (F : keyed_by_badge (GameComponent.players (drive es GameComponent.initial))).
  { unfold drive.
    assert (G : forall s, keyed_by_badge (GameComponent.players s) ->
                keyed_by_badge (GameComponent.players
                  (fold_left (fun s e => final (handle e s)) es s))).
    { induction es as [|e es IH]; intros s K; cbn [fold_left]; [exact K|].
      apply IH, handle_keeps_keyed, K. }
    apply G. constructor. }
  intros badge p G. pose proof (@keyed_get _ badge p F G) as E.
  split; [exact E|]. unfold lights_of. rewrite E. reflexivity.
Qed.

Definition counters_in_range (s : GameComponent.t) : Prop :=
  0 <= GameComponent.press_counter s <= 100 /\
  0 <= GameComponent.save_counter s <= 100.

Lemma push_button_in_range (s : GameComponent.t) :
  counters_in_range s -> counters_in_range (final (push_button s)).
Proof.
  unfold counters_in_range. intros [P Q]. rewrite push_button_runs. cbv zeta.
  destruct (Z.gtb_spec (GameComponent.press_counter s + 1) 100);
    [destruct (Z.gtb_spec (GameComponent.save_counter s + 1) 100)|];
    cbn [final GameComponent.press_counter GameComponent.save_counter
         GameComponent.with_press_counter GameComponent.with_save_counter]; lia.
Qed.

Lemma calculate_buttons_in_range (s : GameComponent.t) :
  counters_in_range s -> counters_in_range (final (calculate_buttons s)).
Proof.
  intros R. rewrite calculate_buttons_runs. cbv zeta.
  destruct (held_eqb _ _); rewrite relight_all_runs; cbv zeta; cbn [after final].
  - exact R.
  - apply (@push_button_in_range
             (GameComponent.with_current_button (max_item s) s)). exact R.
Qed.

Lemma handle_in_range (e : event) (s : GameComponent.t) :
  counters_in_range s -> counters_in_range (final (handle e s)).
Proof.
  intros R.
  destruct e as [badge ps rs|badge|button timestamp badge|button timestamp badge];
    cbn [handle].
  - rewrite on_player_join_runs. exact R.
  - destruct (Dict.get badge (GameComponent.players s)) as [p|] eqn:G.
    + destruct (@on_player_leave_registered s badge p G) as (ps & D & ->). exact R.
    + rewrite on_player_leave_unknown by exact G. exact R.
  - destruct (Dict.get badge (GameComponent.players s)) as [p|] eqn:G.
    + rewrite on_button_press_registered with (p := p) by exact G.
      apply calculate_buttons_in_range. exact R.
    + rewrite on_button_press_unknown by exact G. exact R.
  - destruct (Dict.get badge (GameComponent.players s)) as [p|] eqn:G.
    + rewrite on_button_release_registered with (p := p) by exact G.
      cbn [after final]. apply calculate_buttons_in_range. exact R.
    + rewrite on_button_release_unknown by exact G. exact R.
Qed.

(** Whatever events arrive, the change counter and the save counter stay
    within 0..100: each is put back to zero by the very change that would take
    it to 101. *)
Theorem counters_stay_in_range (es : list event) :
  let s := drive es GameComponent.initial in
  0 <= GameComponent.press_counter s <= 100 /\
  0 <= GameComponent.save_counter s <= 100.
Proof.
  cbv zeta. unfold drive.
  assert (G : forall s, counters_in_range s ->
                        counters_in_range
                          (fold_left (fun s e => final (handle e s)) es s)).
  { induction es as [|e es IH]; intros s K; cbn [fold_left]; [exact K|].
    apply IH, handle_in_range, K. }
  apply (G GameComponent.initial). unfold counters_in_range. cbn. lia.
Qed.

(** ** Votes *)

(** The number of players that hold some button. *)
Definition holding (ps : Dict.t PlayerInfo.t) : nat :=
  length (filter (fun kv => match PlayerInfo.current_button (snd kv) with
                            | Some _ => true
                            | None => false
                            end) ps).

(** All the votes in [totals], summed over its keys. *)
Definition votes_cast (t : totals) : Z :=
  fold_right (fun b n => t b + n) 0 Button.all.

Lemma holders_cons (b : Button.t) (k : Z) (p : PlayerInfo.t)
    (ps : Dict.t PlayerInfo.t) :
  holders b ((k, p) :: ps)
  = ((if held_eqb (PlayerInfo.current_button p) (Some b) then 1 else 0)
     + holders b ps)%nat.
Proof.
  unfold holders. cbn [filter snd].
  destruct (held_eqb (PlayerInfo.current_button p) (Some b)); reflexivity.
Qed.

Lemma holders_le_length (b : Button.t) (ps : Dict.t PlayerInfo.t) :
  (holders b ps <= length ps)%nat.
Proof. unfold holders. apply filter_length_le. Qed.

Lemma votes_cast_holding (ps : Dict.t PlayerInfo.t) :
  votes_cast (count_votes ps) = Z.of_nat (holding ps) /\
  (forall b, 0 <= count_votes ps b).
Proof.
  split.
  - unfold votes_cast, Button.all. cbn [fold_right].
    rewrite !count_votes_holders.
    induction ps as [|[k p] ps IH]; [reflexivity|].
    rewrite !holders_cons. unfold holding in *. cbn [filter snd].
    destruct (PlayerInfo.current_button p) as [[]|]; cbn [held_eqb Button.eqb length];
      lia.
  - intros b. rewrite count_votes_holders. lia.
Qed.

(** Every player has at most one vote: the counts of the eight buttons add up
    to the number of players that hold a button, so to at most the number of
    registered players, and no single count is negative or larger than
    that. *)
Theorem one_vote_per_player (ps : Dict.t PlayerInfo.t) :
  votes_cast (count_votes ps) = Z.of_nat (holding ps) /\
  (holding ps <= length ps)%nat /\
  (forall b, 0 <= count_votes ps b <= Z.of_nat (holding ps)) /\
  0 <= max_count (count_votes ps) <= Z.of_nat (length ps).
Proof.
  destruct (votes_cast_holding ps) as (S & P).
  assert (L : (holding ps <= length ps)%nat) by (apply filter_length_le).
  split; [exact S|]. split; [exact L|]. split.
  - intros b. split; [apply P|]. rewrite <- S.
    unfold votes_cast, Button.all. cbn [fold_right].
    pose proof (P Button.UP). pose proof (P Button.DOWN).
    pose proof (P Button.LEFT). pose proof (P Button.RIGHT).
    pose proof (P Button.SELECT). pose proof (P Button.START).
    pose proof (P Button.A). pose proof (P Button.B).
    destruct b; lia.
  - split; [apply (top_ge (count_votes ps) Button.all 0)|].
    destruct (top_attained (count_votes ps) Button.all 0) as [E|(a & _ & E)].
    + unfold max_count. rewrite E. lia.
    + unfold max_count. rewrite <- E, count_votes_holders.
      pose proof (holders_le_length a ps). lia.
Qed.

Lemma holders_del (b : Button.t) (ps ps' : Dict.t PlayerInfo.t) (k : Z)
    (p : PlayerInfo.t) :
  Dict.get k ps = Some p -> Dict.del k ps = Some ps' ->
  holders b ps
  = ((if held_eqb (PlayerInfo.current_button p) (Some b) then 1 else 0)
     + holders b ps')%nat.
Proof.
  revert ps'. induction ps as [|[k' p'] ps IH]; cbn [Dict.get Dict.del];
    intros ps' G D; [discriminate|].
  destruct (k =? k').
  - injection G as ->. injection D as <-. apply holders_cons.
  - destruct (Dict.del k ps) as [r|]; [|discriminate]. injection D as <-.
    rewrite !holders_cons, (IH r G eq_refl). lia.
Qed.

(** When a registered player leaves, exactly that player's vote is gone from
    the counts a later recomputation works with: the count of the button the
    player held goes down by one, every other count stays. *)
Theorem a_leave_takes_back_one_vote
    (s : GameComponent.t) (badge : Z) (p : PlayerInfo.t) :
  Dict.get badge (GameComponent.players s) = Some p ->
  let gone := final (on_player_leave badge s) in
  forall b,
    count_votes (GameComponent.players gone) b
    = count_votes (GameComponent.players s) b
      - (if held_eqb (PlayerInfo.current_button p) (Some b) then 1 else 0).
Proof.
  intros G gone b. unfold gone.
  destruct (@on_player_leave_registered s badge p G) as (ps & D & ->).
  cbn [final GameComponent.players GameComponent.with_players].
  rewrite !count_votes_holders,
    (@holders_del b (GameComponent.players s) ps badge p G D).
  destruct (held_eqb (PlayerInfo.current_button p) (Some b)); lia.
Qed.

Lemma a_leave_takes_back_one_vote_witness :
  count_votes (GameComponent.players (final (on_player_leave 2 a_then_b))) Button.B
  = count_votes (GameComponent.players a_then_b) Button.B
    - (if held_eqb
            (PlayerInfo.current_button
               (PlayerInfo.with_light_settings all_green
                  (PlayerInfo.with_current_button (Some Button.B)
                     (PlayerInfo.init 2 [20; 21]))))
            (Some Button.B)
       then 1 else 0).
Proof.
  apply (@a_leave_takes_back_one_vote a_then_b 2
           (PlayerInfo.with_light_settings all_green
              (PlayerInfo.with_current_button (Some Button.B)
                 (PlayerInfo.init 2 [20; 21])))).
  vm_compute. reflexivity.
Defined.

(** ** What a press and a release do to the players *)

Lemma get_pressed_button
    (s : GameComponent.t) (button : Button.t) (timestamp badge b : Z) :
  option_map PlayerInfo.current_button
    (Dict.get b (GameComponent.players (pressed button timestamp badge s)))
  = if b =? badge
    then option_map (fun _ => Some button) (Dict.get b (GameComponent.players s))
    else option_map PlayerInfo.current_button (Dict.get b (GameComponent.players s)).
Proof.
  unfold pressed.
  cbn [GameComponent.players GameComponent.with_last_button GameComponent.with_players].
  destruct (Button.eqb button Button.START); rewrite ?get_update;
    destruct (b =? badge);
    destruct (Dict.get b (GameComponent.players s)); reflexivity.
Qed.

Lemma get_released_button (s : GameComponent.t) (badge b : Z) :
  option_map PlayerInfo.current_button
    (Dict.get b (GameComponent.players (released badge s)))
  = if b =? badge
    then option_map (fun _ => None) (Dict.get b (GameComponent.players s))
    else option_map PlayerInfo.current_button (Dict.get b (GameComponent.players s)).
Proof.
  unfold released.
  cbn [GameComponent.players GameComponent.with_last_button GameComponent.with_players].
  rewrite get_update. destruct (b =? badge);
    destruct (Dict.get b (GameComponent.players s)); reflexivity.
Qed.

Lemma calculate_buttons_keeps_buttons (s : GameComponent.t) (b : Z) :
  option_map PlayerInfo.current_button
    (Dict.get b (GameComponent.players (final (calculate_buttons s))))
  = option_map PlayerInfo.current_button (Dict.get b (GameComponent.players s)).
Proof.
  rewrite calculate_buttons_get.
  destruct (Dict.get b (GameComponent.players s)); reflexivity.
Qed.

(** A press by a registered player makes the pressed button that player's
    held button, whatever the player held before; a release clears the
    player's held button, whichever button is reported as released and
    whenever; the held buttons of all the other players stay as they are.
    The session object a release ends in does not depend on the released
    button or on the timestamp at all. *)
Theorem press_and_release_touch_one_player
    (s : GameComponent.t) (button : Button.t) (timestamp badge : Z)
    (p : PlayerInfo.t) :
  Dict.get badge (GameComponent.players s) = Some p ->
  let held s' b :=
    option_map PlayerInfo.current_button (Dict.get b (GameComponent.players s')) in
  let down := final (on_button_press button timestamp badge s) in
  let up := final (on_button_release button timestamp badge s) in
  held down badge = Some (Some button) /\
  held up badge = Some None /\
  (forall b, b <> badge -> held down b = held s b /\ held up b = held s b) /\
  (forall button' timestamp',
      final (on_button_release button' timestamp' badge s) = up).
Proof.
  intros G held down up. unfold held, down, up.
  rewrite on_button_press_registered with (p := p) by exact G.
  rewrite on_button_release_registered with (p := p) by exact G.
  cbn [after final].
  rewrite !calculate_buttons_keeps_buttons, get_pressed_button, get_released_button.
  rewrite Z.eqb_refl, G. cbn [option_map].
  do 2 (split; [reflexivity|]). split.
  - intros b N. rewrite !calculate_buttons_keeps_buttons,
      get_pressed_button, get_released_button.
    destruct (Z.eqb_spec b badge); [contradiction|]. split; reflexivity.
  - intros button' timestamp'.
    rewrite on_button_release_registered with (p := p) by exact G.
    reflexivity.
Qed.

Lemma press_and_release_touch_one_player_witness :
  let s := a_then_b in
  let held s' b :=
    option_map PlayerInfo.current_button (Dict.get b (GameComponent.players s')) in
  let down := final (on_button_press Button.UP 7 2 s) in
  let up := final (on_button_release Button.UP 7 2 s) in
  held down 2 = Some (Some Button.UP) /\
  held up 2 = Some None /\
  (forall b, b <> 2 -> held down b = held s b /\ held up b = held s b) /\
  (forall button' timestamp',
      final (on_button_release button' timestamp' 2 s) = up).
Proof.
  apply (@press_and_release_touch_one_player a_then_b Button.UP 7 2
           (PlayerInfo.with_light_settings all_green
              (PlayerInfo.with_current_button (Some Button.B)
                 (PlayerInfo.init 2 [20; 21])))).
  vm_compute. reflexivity.
Defined.

(** ** Who wins after a press and after a release *)

Lemma holders_pos (b : Button.t) (ps : Dict.t PlayerInfo.t) (k : Z) :
  option_map PlayerInfo.current_button (Dict.get k ps) = Some (Some b) ->
  (1 <= holders b ps)%nat.
Proof.
  induction ps as [|[k' p'] ps IH]; cbn [Dict.get]; [discriminate|].
  rewrite holders_cons. destruct (k =? k').
  - cbn [option_map]. intros [= ->]. cbn [held_eqb]. rewrite Button.eqb_refl. lia.
  - intros H. specialize (IH H). lia.
Qed.

Lemma first_tied_some (t : totals) :
  0 < max_count t -> first_tied_in_button_order t <> None.
Proof.
  intros P. unfold first_tied_in_button_order.
  destruct (Z.eqb_spec (max_count t) 0); [lia|].
  destruct (@max_count_attained t P) as [a E].
  intros N. pose proof (find_none _ _ N a (Button.all_complete a)) as F.
  cbn beta in F. lia.
Qed.

Lemma first_tied_none (t : totals) :
  (forall b, 0 <= t b) ->
  first_tied_in_button_order t = None <-> forall b, t b = 0.
Proof.
  intros P. split.
  - intros N b. pose proof (max_count_bound t b).
    destruct (Z_lt_le_dec 0 (max_count t)) as [L|L].
    + exfalso. exact (@first_tied_some t L N).
    + specialize (P b). lia.
  - intros Z0. unfold first_tied_in_button_order.
    destruct (Z.eqb_spec (max_count t) 0) as [|N]; [reflexivity|].
    exfalso. apply N.
    destruct (top_attained t Button.all 0) as [E|(a & _ & E)];
      unfold max_count; [exact E|]. rewrite <- E. apply Z0.
Qed.

Lemma count_votes_after_recomputation (s : GameComponent.t) :
  count_votes (GameComponent.players (final (calculate_buttons s)))
  = count_votes (GameComponent.players s).
Proof. rewrite calculate_buttons_players. apply count_votes_relight. Qed.

(** After a press by a registered player some button is decided, and it is
    the pressed button exactly when no other button has strictly more
    holders: the newest press wins every tie, and loses only when outvoted. *)
Theorem a_press_wins_unless_outvoted
    (s : GameComponent.t) (button : Button.t) (timestamp badge : Z)
    (p : PlayerInfo.t) :
  Dict.get badge (GameComponent.players s) = Some p ->
  let r := on_button_press button timestamp badge s in
  let t := count_votes (GameComponent.players (final r)) in
  1 <= t button /\
  decided (final r) <> None /\
  (decided (final r) = Some button <-> forall c, t c <= t button).
Proof.
  intros G r t. unfold r in *. unfold t, decided. clear r t.
  rewrite on_button_press_registered with (p := p) by exact G.
  rewrite count_votes_after_recomputation, calculate_buttons_decided,
    max_item_arbitration.
  set (t := count_votes (GameComponent.players (pressed button timestamp badge s))).
  assert (L : GameComponent.last_button (pressed button timestamp badge s)
              = Some button) by reflexivity.
  rewrite L.
  assert (P : 1 <= t button).
  { unfold t. rewrite count_votes_holders.
    assert (H : (1 <= holders button
                        (GameComponent.players (pressed button timestamp badge s)))%nat).
    { apply holders_pos with (k := badge). rewrite get_pressed_button, Z.eqb_refl, G.
      reflexivity. }
    lia. }
  pose proof (max_count_bound t button) as M.
  split; [exact P|]. split.
  - unfold arbitration. destruct (t button =? max_count t); [discriminate|].
    apply first_tied_some. lia.
  - split.
    + intros D c. apply arbitration_maximal in D. rewrite D. apply max_count_bound.
    + intros A. unfold arbitration.
      destruct (Z.eqb_spec (t button) (max_count t)) as [|N]; [reflexivity|].
      exfalso. destruct (@max_count_attained t ltac:(lia)) as [a E].
      specialize (A a). lia.
Qed.

Lemma a_press_wins_unless_outvoted_witness :
  let r := on_button_press Button.UP 7 2 a_then_b in
  let t := count_votes (GameComponent.players (final r)) in
  1 <= t Button.UP /\
  decided (final r) <> None /\
  (decided (final r) = Some Button.UP <-> forall c, t c <= t Button.UP).
Proof.
  apply (@a_press_wins_unless_outvoted a_then_b Button.UP 7 2
           (PlayerInfo.with_light_settings all_green
              (PlayerInfo.with_current_button (Some Button.B)
                 (PlayerInfo.init 2 [20; 21])))).
  vm_compute. reflexivity.
Defined.

(** After a release by a registered player there is no last button, so the
    decided button is the most held one, the first in the order up, down,
    left, right, select, start, a, b among equals; nothing is decided exactly
    when no player holds a button any more. *)
Theorem a_release_falls_back_to_button_order
    (s : GameComponent.t) (button : Button.t) (timestamp badge : Z)
    (p : PlayerInfo.t) :
  Dict.get badge (GameComponent.players s) = Some p ->
  let r := on_button_release button timestamp badge s in
  let t := count_votes (GameComponent.players (final r)) in
  GameComponent.last_button (final r) = None /\
  decided (final r) = first_tied_in_button_order t /\
  (decided (final r) = None <-> holding (GameComponent.players (final r)) = 0%nat) /\
  (forall a, decided (final r) = Some a -> 1 <= t a /\ forall c, t c <= t a).
Proof.
  intros G r t. unfold r in *. unfold t, decided. clear r t.
  rewrite on_button_release_registered with (p := p) by exact G.
  cbn [after final].
  rewrite calculate_buttons_last_button, calculate_buttons_decided,
    max_item_arbitration.
  set (ps := GameComponent.players (final (calculate_buttons (released badge s)))).
  assert (T : count_votes ps = count_votes (GameComponent.players (released badge s)))
    by (apply count_votes_after_recomputation).
  rewrite <- T.
  assert (L : GameComponent.last_button (released badge s) = None) by reflexivity.
  rewrite L. cbn [arbitration].
  destruct (votes_cast_holding ps) as (S & P).
  split; [reflexivity|]. split; [reflexivity|]. split.
  - rewrite (@first_tied_none (count_votes ps) P). split.
    + intros Z0. apply Nat2Z.inj. rewrite <- S. unfold votes_cast, Button.all.
      cbn [fold_right]. rewrite !Z0. reflexivity.
    + intros H b.
      assert (count_votes ps b <= Z.of_nat (holding ps));
        [|pose proof (P b); lia].
      rewrite <- S. unfold votes_cast, Button.all. cbn [fold_right].
      pose proof (P Button.UP). pose proof (P Button.DOWN).
      pose proof (P Button.LEFT). pose proof (P Button.RIGHT).
      pose proof (P Button.SELECT). pose proof (P Button.START).
      pose proof (P Button.A). pose proof (P Button.B).
      destruct b; lia.
  - intros a D. unfold first_tied_in_button_order in D.
    destruct (Z.eqb_spec (max_count (count_votes ps)) 0) as [|N]; [discriminate|].
    apply find_tied_sound in D. pose proof (top_ge (count_votes ps) Button.all 0) as Ge.
    fold (max_count (count_votes ps)) in Ge. split; [lia|].
    intros c. rewrite D. apply max_count_bound.
Qed.

Lemma a_release_falls_back_to_button_order_witness :
  let r := on_button_release Button.B 7 2 a_then_b in
  let t := count_votes (GameComponent.players (final r)) in
  GameComponent.last_button (final r) = None /\
  decided (final r) = first_tied_in_button_order t /\
  (decided (final r) = None <-> holding (GameComponent.players (final r)) = 0%nat) /\
  (forall a, decided (final r) = Some a -> 1 <= t a /\ forall c, t c <= t a).
Proof.
  apply (@a_release_falls_back_to_button_order a_then_b Button.B 7 2
           (PlayerInfo.with_light_settings all_green
              (PlayerInfo.with_current_button (Some Button.B)
                 (PlayerInfo.init 2 [20; 21])))).
  vm_compute. reflexivity.
Defined.

(** ** The start timer *)

(** The events that leave the recorded start press of [badge] alone: all but
    a press of start by that badge, and a join or a leave of that badge. *)
Definition keeps_timer (badge : Z) (e : event) : bool :=
  match e with
  | Join b _ _ | Leave b => negb (b =? badge)
  | Press button _ b => negb (Button.eqb button Button.START && (b =? badge))
  | Release _ _ _ => true
  end.

Definition timer (s : GameComponent.t) (badge : Z) : option Z :=
  option_map PlayerInfo.start_press_at (Dict.get badge (GameComponent.players s)).

Lemma get_set_other (V : Type) (d : Dict.t V) (k k' : Z) (v : V) :
  k <> k' -> Dict.get k (Dict.set k' v d) = Dict.get k d.
Proof.
  intros N. induction d as [|[k0 v0] d IH]; cbn [Dict.get Dict.set].
  - destruct (Z.eqb_spec k k'); [contradiction|reflexivity].
  - destruct (Z.eqb_spec k' k0) as [->|N']; cbn [Dict.get].
    + destruct (Z.eqb_spec k k0); [contradiction|reflexivity].
    + destruct (k =? k0); [reflexivity|exact IH].
Qed.

Lemma get_del_other (V : Type) (d d' : Dict.t V) (k k' : Z) :
  k <> k' -> Dict.del k' d = Some d' -> Dict.get k d' = Dict.get k d.
Proof.
  intros N. revert d'. induction d as [|[k0 v0] d IH]; cbn [Dict.del];
    intros d' D; [discriminate|].
  destruct (Z.eqb_spec k' k0) as [->|N'].
  - injection D as <-. cbn [Dict.get].
    destruct (Z.eqb_spec k k0); [contradiction|reflexivity].
  - destruct (Dict.del k' d) as [r|]; [|discriminate]. injection D as <-.
    cbn [Dict.get]. destruct (k =? k0); [reflexivity|apply IH; reflexivity].
Qed.

Lemma timer_after_recomputation (s : GameComponent.t) (badge : Z) :
  timer (final (calculate_buttons s)) badge = timer s badge.
Proof.
  unfold timer. rewrite calculate_buttons_get.
  destruct (Dict.get badge (GameComponent.players s)); reflexivity.
Qed.

Lemma handle_keeps_timer (e : event) (s : GameComponent.t) (badge : Z) :
  keeps_timer badge e = true -> timer (final (handle e s)) badge = timer s badge.
Proof.
  destruct e as [b ps rs|b|button timestamp b|button timestamp b];
    cbn [keeps_timer handle]; intros K.
  - apply negb_true_iff, Z.eqb_neq in K.
    rewrite on_player_join_runs. unfold timer.
    cbn [final GameComponent.players GameComponent.with_players].
    rewrite get_set_other by congruence. reflexivity.
  - apply negb_true_iff, Z.eqb_neq in K.
    destruct (Dict.get b (GameComponent.players s)) as [p|] eqn:G.
    + destruct (@on_player_leave_registered s b p G) as (ps & D & ->).
      unfold timer. cbn [final GameComponent.players GameComponent.with_players].
      rewrite (@get_del_other _ (GameComponent.players s) ps badge b) by congruence.
      reflexivity.
    + rewrite on_player_leave_unknown by exact G. reflexivity.
  - apply negb_true_iff in K.
    destruct (Dict.get b (GameComponent.players s)) as [p|] eqn:G.
    + rewrite on_button_press_registered with (p := p) by exact G.
      rewrite timer_after_recomputation. unfold timer, pressed.
      cbn [GameComponent.players GameComponent.with_last_button
           GameComponent.with_players].
      destruct (Button.eqb button Button.START); cbn [andb] in K;
        rewrite ?get_update; rewrite ?K;
        destruct (badge =? b) eqn:E;
        try (rewrite Z.eqb_sym in E; congruence);
        destruct (Dict.get badge (GameComponent.players s)); reflexivity.
    + rewrite on_button_press_unknown by exact G. reflexivity.
  - destruct (Dict.get b (GameComponent.players s)) as [p|] eqn:G.
    + rewrite on_button_release_registered with (p := p) by exact G.
      cbn [after final]. rewrite timer_after_recomputation. unfold timer, released.
      cbn [GameComponent.players GameComponent.with_last_button
           GameComponent.with_players].
      rewrite get_update. destruct (badge =? b);
        destruct (Dict.get badge (GameComponent.players s)); reflexivity.
    + rewrite on_button_release_unknown by exact G. reflexivity.
Qed.

Lemma drive_keeps_timer (es : list event) (s : GameComponent.t) (badge : Z) :
  forallb (keeps_timer badge) es = true -> timer (drive es s) badge = timer s badge.
Proof.
  unfold drive. revert s. induction es as [|e es IH]; intros s F; [reflexivity|].
  cbn [forallb] in F. apply andb_prop in F. destruct F as [Fe Fes].
  cbn [fold_left]. rewrite (IH _ Fes). apply handle_keeps_timer. exact Fe.
Qed.

Lemma release_kicks_by_timer
    (s : GameComponent.t) (timestamp badge t0 : Z) :
  timer s badge = Some t0 ->
  In (Publish_kick badge) (trace (on_button_release Button.START timestamp badge s))
  <-> timestamp - t0 > 1500.
Proof.
  unfold timer. destruct (Dict.get badge (GameComponent.players s)) as [p|] eqn:G;
    [|discriminate].
  intros [= <-]. rewrite (@release_kicks_iff s Button.START timestamp badge p G).
  unfold PlayerInfo.QUIT_TIME. tauto.
Qed.

(** The quit timer is the time of the player's last press of start, and
    nothing else touches it: once a registered player has pressed start at
    [t0], whatever presses of other buttons, releases, and events of other
    badges follow, a release of start by that player at [t1] kicks exactly
    when [t1 - t0 > 1500], also when the player has pressed another button or
    already released start in between. *)
Theorem only_a_start_press_restarts_the_quit_timer
    (s : GameComponent.t) (badge t0 t1 : Z) (es : list event) :
  registered badge s ->
  forallb (keeps_timer badge) es = true ->
  let later := drive es (final (on_button_press Button.START t0 badge s)) in
  In (Publish_kick badge) (trace (on_button_release Button.START t1 badge later))
  <-> t1 - t0 > 1500.
Proof.
  intros R F later. apply release_kicks_by_timer. unfold later.
  rewrite (drive_keeps_timer _ _ _ F).
  unfold registered in R.
  destruct (Dict.get badge (GameComponent.players s)) as [p|] eqn:G; [|congruence].
  destruct (@press_start_records s t0 badge p G) as (p' & G' & E).
  unfold timer. rewrite G'. cbn [option_map]. congruence.
Qed.

Lemma only_a_start_press_restarts_the_quit_timer_witness :
  let es := [Press Button.A 150 1; Release Button.A 200 1; Join 2 20 21;
             Press Button.START 900 2] in
  let later := drive es (final (on_button_press Button.START 100 1 holding_a)) in
  In (Publish_kick 1) (trace (on_button_release Button.START 1601 1 later))
  <-> 1601 - 100 > 1500.
Proof.
  apply (@only_a_start_press_restarts_the_quit_timer holding_a 1 100 1601
           [Press Button.A 150 1; Release Button.A 200 1; Join 2 20 21;
            Press Button.START 900 2]).
  - vm_compute. discriminate.
  - reflexivity.
Defined.

(** A player that has joined and never pressed start has its start press
    recorded at 0: a release of start by it kicks exactly when the release's
    own timestamp is above 1500, whatever the player did with the other
    buttons before. *)
Theorem start_release_without_a_start_press
    (s : GameComponent.t) (badge : Z) (press_sub release_sub : Subscription)
    (timestamp : Z) (es : list event) :
  forallb (keeps_timer badge) es = true ->
  let joined := final (on_player_join badge press_sub release_sub s) in
  In (Publish_kick badge)
     (trace (on_button_release Button.START timestamp badge (drive es joined)))
  <-> timestamp > 1500.
Proof.
  intros F joined.
  rewrite (@release_kicks_by_timer (drive es joined) timestamp badge 0).
  - lia.
  - rewrite (drive_keeps_timer _ _ _ F). unfold joined, timer.
    rewrite on_player_join_runs.
    cbn [final GameComponent.players GameComponent.with_players].
    rewrite get_set_same. reflexivity.
Qed.

Lemma start_release_without_a_start_press_witness :
  let es := [Press Button.A 150 1; Release Button.A 200 1] in
  let joined := final (on_player_join 1 10 11 GameComponent.initial) in
  In (Publish_kick 1)
     (trace (on_button_release Button.START 1700 1 (drive es joined)))
  <-> 1700 > 1500.
Proof.
  apply (@start_release_without_a_start_press GameComponent.initial 1 10 11 1700
           [Press Button.A 150 1; Release Button.A 200 1]).
  reflexivity.
Defined.
